(** * check_mapping.c: translating a virtual address through /proc/self/pagemap

    A shallow embedding of [bmks/swapnil_scripts/check_mapping.c].  The C
    function [virtual_to_physical_address] and the driver [main] are written
    as programs of a small state monad over an explicit description of what
    the C library and the kernel answer (the readable files, the page size,
    the byte order of the host).  Values of type [uintptr_t] / [unsigned long]
    are integers of [Z] and every operation that can leave the 64-bit range
    carries its reduction modulo [2 ^ 64].

    The helpers the source declares and never calls ([random_range],
    [handle_error_en], [NUM_CPUS]) are left out.

    The file has four parts: the program and its environment; the words
    used to state what a call finds and does; the lemmas on the library
    calls, the loops and the ways through a call; the properties of the
    specification, one per claim.  Further properties of the program follow
    them, and those of the two other programs of the directory,
    [identity_map.c] and [apriori_paging_set_process.c], whose embedding
    closes the first part. *)

From Stdlib Require Import ZArith List String Ascii Bool Lia.
From coqutil Require Import Byte Z.bitblast Word.LittleEndianList.
Import ListNotations.

Local Open Scope Z_scope.

(** ** Constants and macros of the source *)

Definition PAGEMAP_ENTRY : Z := 8.

Definition page_mapping_file : string := "/proc/self/pagemap".

(** [GET_BIT(X,Y)] and [GET_PFN(X)]: declared by the source, not used by it. *)
Definition GET_BIT (X Y : Z) : Z := Z.shiftr (Z.land X (Z.shiftl 1 Y)) Y.
Definition GET_PFN (X : Z) : Z := Z.land X 0x7FFFFFFFFFFFFF.

(** [EOF] of <stdio.h>. *)
Definition EOF : Z := -1.

(** [const int __endian_bit = 1;] *)
Definition __endian_bit : Z := 1.

(** The line feed that ends the messages. *)
Definition LF : string := String (ascii_of_nat 10) EmptyString.

(** ** Machine integers *)

(** Reduction to [uintptr_t] (64 bits on the x86-64 hosts the file is
    written for: it includes <emmintrin.h>). *)
Definition wrap (z : Z) : Z := z mod 2 ^ 64.

(** Conversion of an [unsigned long] to [long], as at the call of [fseek]. *)
Definition to_long (z : Z) : Z := if z <? 2 ^ 63 then z else z - 2 ^ 64.

(** ** The environment *)

(** An open stream: the byte [getc] finds at each position ([None]: end of
    data, or a read error) and the status [fseek] answers for an offset. *)
Record stream := {
  byte_at : Z -> option byte;
  fseek_status : Z -> Z
}.

(** What the program cannot decide: which paths [fopen] can open for reading,
    the page size that [getpagesize()] and [sysconf(_SC_PAGESIZE)] report, and
    the byte order in which the host lays out an object in memory. *)
Record world := {
  files : string -> option stream;
  page_size : Z;
  big_endian_host : bool
}.

(** ** Observable behaviour *)

Inductive arg : Type :=
| AStr (s : string)
| ANum (z : Z).

Inductive event : Type :=
| Fopen (path : string) (opened : bool)
| Fseek (offset : Z) (status : Z)
| Getc (c : Z)
| Fclose
| Printf (fmt : string) (args : list arg)
| Perror (msg : string)
| Scanf (fmt : string) (ret : Z)
| AssertFail (expr : string).

(** The state a call threads: how many streams are open, the position of the
    stream in use, and everything done so far, oldest first. *)
Record state := {
  open_streams : nat;
  position : Z;
  trace : list event
}.

Definition initial_state : state :=
  {| open_streams := 0; position := 0; trace := [] |}.

(** ** The monad *)

Definition M (A : Type) : Type := world -> state -> A * state.

Definition ret {A : Type} (a : A) : M A := fun _ s => (a, s).

Definition bind {A B : Type} (m : M A) (k : A -> M B) : M B :=
  fun w s => let (a, s') := m w s in k a w s'.

Declare Scope prog_scope.
Delimit Scope prog_scope with prog.
Notation "x <- m ;; k" := (bind m (fun x => k))
  (at level 61, m at next level, right associativity) : prog_scope.
Notation "m ;; k" := (bind m (fun _ => k))
  (at level 61, right associativity) : prog_scope.
Local Open Scope prog_scope.

Definition emit (e : event) : M unit :=
  fun _ s => (tt, {| open_streams := open_streams s;
                     position := position s;
                     trace := trace s ++ [e] |}).

(** ** The C library, as far as the program calls it *)

Definition fopen (path : string) : M (option stream) :=
  fun w s =>
    match files w path with
    | Some f => (Some f, {| open_streams := S (open_streams s);
                            position := 0;
                            trace := trace s ++ [Fopen path true] |})
    | None => (None, {| open_streams := open_streams s;
                        position := position s;
                        trace := trace s ++ [Fopen path false] |})
    end.

Definition fseek (f : stream) (offset : Z) : M Z :=
  fun _ s =>
    let status := fseek_status f offset in
    (status, {| open_streams := open_streams s;
                position := if status =? 0 then offset else position s;
                trace := trace s ++ [Fseek offset status] |}).

Definition getc (f : stream) : M Z :=
  fun _ s =>
    match byte_at f (position s) with
    | Some b => (byte.unsigned b,
                 {| open_streams := open_streams s;
                    position := position s + 1;
                    trace := trace s ++ [Getc (byte.unsigned b)] |})
    | None => (EOF, {| open_streams := open_streams s;
                       position := position s;
                       trace := trace s ++ [Getc EOF] |})
    end.

Definition fclose (f : stream) : M unit :=
  fun _ s => (tt, {| open_streams := pred (open_streams s);
                     position := position s;
                     trace := trace s ++ [Fclose] |}).

Definition printf (fmt : string) (args : list arg) : M unit :=
  emit (Printf fmt args).

Definition perror (msg : string) : M unit := emit (Perror msg).

Definition getpagesize : M Z := fun w s => (page_size w, s).

Definition sysconf_SC_PAGESIZE : M Z := fun w s => (page_size w, s).

(** The bytes of an [int] object in memory, lowest address first. *)
Definition int_object (big : bool) (v : Z) : list Z :=
  let little := [v mod 256; (v / 2 ^ 8) mod 256;
                 (v / 2 ^ 16) mod 256; (v / 2 ^ 24) mod 256] in
  if big then rev little else little.

(** The macro [is_bigendian()]: whether the byte at the lowest address of
    [__endian_bit] is zero. *)
Definition is_bigendian : M bool :=
  fun w s => (hd 0 (int_object (big_endian_host w) __endian_bit) =? 0, s).

(** ** [virtual_to_physical_address] *)

(** The list [l] with [x] in its cell [n]; past the end, where the C array
    has no cell, nothing changes. *)
Fixpoint set_nth (n : nat) (x : Z) (l : list Z) : list Z :=
  match l, n with
  | [], _ => []
  | _ :: t, O => x :: t
  | h :: t, S n' => h :: set_nth n' x t
  end.

(** [c_buf[i] = c], the [int] converted to [unsigned char]. *)
Definition store (c_buf : list Z) (i : Z) (c : Z) : list Z :=
  set_nth (Z.to_nat i) (c mod 256) c_buf.

(** The first loop, lines 60 to 77, with [n] iterations left at index [i]:
    [None] when [getc] met [EOF] (the stream is closed before the return),
    the filled buffer otherwise. *)
Fixpoint read_entry (f : stream) (n : nat) (i : Z) (c_buf : list Z)
  : M (option (list Z)) :=
  match n with
  | O => ret (Some c_buf)
  | S n' =>
      c <- getc f ;;
      if c =? EOF then
        fclose f ;;
        ret None
      else
        big <- is_bigendian ;;
        read_entry f n' (i + 1)
          (if big then store c_buf i c
           else store c_buf (PAGEMAP_ENTRY - i - 1) c)
  end.

(** The second loop, lines 79 to 82. *)
Fixpoint assemble (n : nat) (i : Z) (c_buf : list Z) (read_val : Z) : Z :=
  match n with
  | O => read_val
  | S n' =>
      assemble n' (i + 1) c_buf
        (wrap (wrap (Z.shiftl read_val 8) + nth (Z.to_nat i) c_buf 0))
  end.

(** The test of line 85, [read_val & (1ULL << 63)]. *)
Definition page_present (read_val : Z) : bool :=
  negb (Z.land read_val (Z.shiftl 1 63) =? 0).

(** The mask of line 86, [read_val & ((1ULL << 55) - 1)]. *)
Definition pfn_mask (read_val : Z) : Z :=
  Z.land read_val (Z.shiftl 1 55 - 1).

(** Lines 85 to 93. *)
Definition translate (virt_addr read_val : Z) : M Z :=
  if page_present read_val then
    let read_val := pfn_mask read_val in
    pagesize <- sysconf_SC_PAGESIZE ;;
    let read_val := wrap (read_val * wrap pagesize) in
    pagesize <- sysconf_SC_PAGESIZE ;;
    let read_val := Z.lor read_val (Z.land virt_addr (wrap (pagesize - 1))) in
    ret read_val
  else
    printf ("Page not present" ++ LF)%string [] ;;
    ret read_val.

(** The contents of [c_buf] before the first loop writes it.  The array is
    not initialised by the source; every cell is written before it is read,
    so that the value chosen here does not matter ([fill_whole] below). *)
Definition c_buf_init : list Z := repeat 0 (Z.to_nat PAGEMAP_ENTRY).

(** Line 49. *)
Definition file_offset_of (virt_addr pagesize : Z) : Z :=
  wrap (virt_addr / wrap pagesize * PAGEMAP_ENTRY).

Definition virtual_to_physical_address (virt_addr : Z) : M Z :=
  f <- fopen page_mapping_file ;;
  match f with
  | None =>
      printf ("Error! Cannot open %s. Please, run as root." ++ LF)%string
             [AStr page_mapping_file] ;;
      ret 0
  | Some f =>
      pagesize <- getpagesize ;;
      let file_offset := file_offset_of virt_addr pagesize in
      status <- fseek f (to_long file_offset) ;;
      if negb (status =? 0) then
        printf ("Error! Cannot seek in %s." ++ LF)%string [AStr page_mapping_file] ;;
        perror "Failed to do fseek!" ;;
        fclose f ;;
        ret 0
      else
        filled <- read_entry f (Z.to_nat PAGEMAP_ENTRY) 0 c_buf_init ;;
        match filled with
        | None => ret 0
        | Some c_buf =>
            let read_val := assemble (Z.to_nat PAGEMAP_ENTRY) 0 c_buf 0 in
            read_val <- translate virt_addr read_val ;;
            fclose f ;;
            ret read_val
        end
  end.

(** ** [main] *)

(** What one [scanf("%lx", &addr)] finds in the pending input: a hexadecimal
    numeral of value [v] (any integer: the text may carry a sign and as many
    digits as it likes), or text that is no such numeral.  The standard input
    is the list of these, and a call past its end finds the end of the
    input. *)
Inductive scan_item : Type :=
| Hex (v : Z)
| NoMatch.

(** [ULONG_MAX] of <limits.h>, [unsigned long] having 64 bits. *)
Definition ULONG_MAX : Z := 2 ^ 64 - 1.

(** The [unsigned long] that the conversion [%lx] makes of a numeral of
    value [v].  It is the conversion of [strtoul] in base 16, by which the C
    library reads the numeral: a value that fits is stored as it is, that of
    a numeral with a minus sign is negated in [unsigned long], and a numeral
    whose magnitude does not fit the type gives [ULONG_MAX] (ISO C leaves
    what [scanf] stores for such a numeral open; this is what the GNU C
    library stores). *)
Definition strtoul_value (v : Z) : Z :=
  if Z.abs v <? 2 ^ 64 then wrap v else ULONG_MAX.

(** How the process ends: [main] returns, or a failed [assert] aborts it. *)
Inductive exit_status : Type :=
| Returned (code : Z)
| Aborted.

(** [ret = scanf("%lx", &addr)]: the value [scanf] returns and the contents
    of [addr] after the call. *)
Definition scanf_lx (stdin : list scan_item) (addr : Z) : Z * Z :=
  match stdin with
  | [] => (EOF, addr)
  | NoMatch :: _ => (0, addr)
  | Hex v :: _ => (1, strtoul_value v)
  end.

(** The loop of lines 106 to 112, reading from [stdin].  [assert] is the one
    of a build without [NDEBUG]: a failed assertion ends the process. *)
Fixpoint main_loop (stdin : list scan_item) (addr : Z) : M exit_status :=
  if addr >? 0 then
    printf "addr:" [] ;;
    let (r, addr) := scanf_lx stdin addr in
    emit (Scanf "%lx" r) ;;
    if negb (r =? 1) then
      emit (AssertFail "ret == 1") ;;
      ret Aborted
    else
      match stdin with
      | [] => ret Aborted (* not reached: on [[]] [scanf_lx] returns [EOF] *)
      | _ :: rest =>
          phys_addr <- virtual_to_physical_address addr ;;
          printf ("vaddr:%lx, paddr:%lx" ++ LF)%string [ANum addr; ANum phys_addr] ;;
          main_loop rest addr
      end
  else
    ret (Returned 0).

(** [main], run with the strings [argv0] and [argv1] that its first [printf]
    shows and with its local [addr] at the stack address [addr_ptr]. *)
Definition main (argv0 argv1 : string) (addr_ptr : Z) (stdin : list scan_item)
  : M exit_status :=
  let addr := 1 in
  printf ("Command line arguments :%s %s" ++ LF)%string [AStr argv0; AStr argv1] ;;
  p <- virtual_to_physical_address addr_ptr ;;
  printf ("stack is around here vaddr:%p paddr:%lx" ++ LF)%string
         [ANum addr_ptr; ANum p] ;;
  main_loop stdin addr.

(** * What a call finds and does *)

(** ** The record in the mapping file *)

(** The [n] bytes of [f] from position [pos] on, if the data goes that far. *)
Fixpoint pending (f : stream) (pos : Z) (n : nat) : option (list byte) :=
  match n with
  | O => Some []
  | S n' =>
      match byte_at f pos with
      | None => None
      | Some b =>
          match pending f (pos + 1) n' with
          | None => None
          | Some bs => Some (b :: bs)
          end
      end
  end.

(** The offset a call for [virt_addr] hands to [fseek]. *)
Definition seek_offset (w : world) (virt_addr : Z) : Z :=
  to_long (file_offset_of virt_addr (page_size w)).

(** The raw record a call for [virt_addr] gets to read: the mapping file
    opens, the seek succeeds and eight bytes follow. *)
Definition fetched (w : world) (virt_addr : Z) : option (list byte) :=
  match files w page_mapping_file with
  | None => None
  | Some f =>
      if fseek_status f (seek_offset w virt_addr) =? 0
      then pending f (seek_offset w virt_addr) (Z.to_nat PAGEMAP_ENTRY)
      else None
  end.

(** ** The two loops as functions of the bytes read *)

(** The buffer the first loop builds from the bytes [raw] that [getc]
    delivers, and the value the second loop makes of it. *)
Fixpoint fill (big : bool) (raw : list byte) (i : Z) (c_buf : list Z) : list Z :=
  match raw with
  | [] => c_buf
  | b :: rest =>
      fill big rest (i + 1)
        (if big then store c_buf i (byte.unsigned b)
         else store c_buf (PAGEMAP_ENTRY - i - 1) (byte.unsigned b))
  end.

Definition assembled (big : bool) (raw : list byte) : Z :=
  assemble (Z.to_nat PAGEMAP_ENTRY) 0 (fill big raw 0 c_buf_init) 0.

(** The value a buffer denotes, most significant byte first. *)
Definition horner (cs : list Z) (acc : Z) : Z :=
  fold_left (fun a c => a * 256 + c) cs acc.

(** A 64-bit value laid out in memory by a host of either byte order. *)
Definition value_bytes (big : bool) (v : Z) : list byte :=
  if big then rev (le_split 8 v) else le_split 8 v.

(** The record of eight zero bytes. *)
Definition zero_record : list byte := repeat Byte.x00 8.

(** ** Events *)

Definition getc_event (b : byte) : event := Getc (byte.unsigned b).

Definition not_present_message : event :=
  Printf ("Page not present" ++ LF)%string [].

Definition cannot_open_message : event :=
  Printf ("Error! Cannot open %s. Please, run as root." ++ LF)%string
         [AStr page_mapping_file].

Definition cannot_seek_message : event :=
  Printf ("Error! Cannot seek in %s." ++ LF)%string [AStr page_mapping_file].

(** What happens between the [fopen] and the [fclose] of a call. *)
Definition inner (e : event) : Prop :=
  match e with
  | Fseek _ _ | Getc _ | Perror _ => True
  | Printf _ _ => e = cannot_seek_message \/ e = not_present_message
  | _ => False
  end.

(** What a call added to the trace. *)
Definition events_since (s s' : state) : list event :=
  skipn (List.length (trace s)) (trace s').

(** How many times the trace has [scanf] called. *)
Definition is_scanf (e : event) : bool :=
  match e with
  | Scanf _ _ => true
  | _ => false
  end.

Definition scanf_calls (t : list event) : nat :=
  List.length (filter is_scanf t).

(** The three events of a failed read: the prompt, the [scanf] that returned
    [r], the assertion. *)
Definition failed_read (r : Z) : list event :=
  [Printf "addr:" []; Scanf "%lx" r; AssertFail "ret == 1"].

(** The bytes [getc] delivers from position [pos] on, up to [n] of them,
    before the data ends. *)
Fixpoint taken (f : stream) (pos : Z) (n : nat) : list byte :=
  match n with
  | O => []
  | S n' =>
      match byte_at f pos with
      | None => []
      | Some b => b :: taken f (pos + 1) n'
      end
  end.

(** The value a call returns for [virt_addr], started afresh. *)
Definition resolve (w : world) (virt_addr : Z) : Z :=
  fst (virtual_to_physical_address virt_addr w initial_state).

(** The pair of numbers a "vaddr:..., paddr:..." line of the driver shows,
    and the pairs a trace shows, oldest first. *)
Definition report_of (e : event) : option (Z * Z) :=
  match e with
  | Printf fmt [ANum vaddr; ANum paddr] =>
      if String.eqb fmt ("vaddr:%lx, paddr:%lx" ++ LF)%string
      then Some (vaddr, paddr) else None
  | _ => None
  end.

Fixpoint reports (t : list event) : list (Z * Z) :=
  match t with
  | [] => []
  | e :: t' =>
      match report_of e with
      | Some r => r :: reports t'
      | None => reports t'
      end
  end.

(** ** Worlds to run the program in *)

(** A mapping file that holds the record [raw] at offset [off] and nothing
    else, and a world around it. *)
Definition one_record (off : Z) (raw : list byte) : stream :=
  {| byte_at := fun pos =>
       if (off <=? pos) && (pos <? off + Z.of_nat (List.length raw))
       then nth_error raw (Z.to_nat (pos - off)) else None;
     fseek_status := fun _ => 0 |}.

Definition only_pagemap (f : stream) (path : string) : option stream :=
  if String.eqb path page_mapping_file then Some f else None.

(** A host whose mapping file holds the single record [raw] at offset [off]. *)
Definition pagemap_world (big : bool) (pagesize off : Z) (raw : list byte)
  : world :=
  {| files := only_pagemap (one_record off raw);
     page_size := pagesize;
     big_endian_host := big |}.

(** A host on which the mapping file cannot be opened. *)
Definition no_pagemap_world : world :=
  {| files := fun _ => None; page_size := 4096; big_endian_host := false |}.

(** The page of [0x456789] is in frame [0x123]. *)
Definition frame_0x123_world : world :=
  pagemap_world false 4096 (0x456 * 8) (value_bytes false 0x8000000000000123).

(** The same page and frame on a big-endian host. *)
Definition frame_0x123_big_world : world :=
  pagemap_world true 4096 (0x456 * 8) (value_bytes true 0x8000000000000123).

(** The page of [0x456789] is swapped out: bit 62 set, bit 63 clear. *)
Definition swapped_world : world :=
  pagemap_world false 4096 (0x456 * 8) (value_bytes false 0x4000000000000123).

(** The page of address 0 is in frame 0. *)
Definition frame_0_world : world :=
  pagemap_world false 4096 0 (value_bytes false 0x8000000000000000).

(** The mapping file opens and holds no data. *)
Definition empty_pagemap_world : world := pagemap_world false 4096 0 [].

(** The record of page 0 is eight zero bytes. *)
Definition zero_record_world : world := pagemap_world false 4096 0 zero_record.

(** The mapping file opens and every [fseek] fails. *)
Definition unseekable_world : world :=
  {| files := only_pagemap {| byte_at := fun _ => None;
                              fseek_status := fun _ => -1 |};
     page_size := 4096;
     big_endian_host := false |}.

(** The page of [0x10000] on a host with pages of 64 KiB. *)
Definition large_page_world : world :=
  pagemap_world false 65536 8 (value_bytes false 0x8000000000000123).

(** A world in which the value [r] is a resolved address: page 0 is in frame
    [r / 4096]. *)
Definition twin_world (r : Z) : world :=
  pagemap_world false 4096 0 (value_bytes false (2 ^ 63 + r / 4096)).

(** The mapping file opens, every seek succeeds and no record is present:
    every byte of the file is zero. *)
Definition all_zero_world : world :=
  {| files := only_pagemap {| byte_at := fun _ => Some Byte.x00;
                              fseek_status := fun _ => 0 |};
     page_size := 4096;
     big_endian_host := false |}.

(** The page of [0x456789] is in frame [0x123], with the flag bits 55, 56
    and 61 of the record set as well. *)
Definition flagged_world : world :=
  pagemap_world false 4096 (0x456 * 8) (value_bytes false 0xA180000000000123).

(** * The two registration tools

    [identity_map.c] and [apriori_paging_set_process.c] hand process names
    to the kernel through two system calls of its own, numbered 335 and 333.
    What these calls do is not in the source: the programs are modelled up to
    the calls they make, as events, with the kernel's answers taken from the
    environment. *)

Module Tools.

Inductive event : Type :=
| Printf (fmt : string) (args : list string)
| Puts (s : string)
| Syscall (number : Z) (names : option (list string)) (count mode : Z)
| Fork (pid : Z)
| Perror (msg : string)
| Execvp (file : string) (args : list string)
| Wait.

(** How a process ends: [main] returns, [exit] is called, [execvp] replaces
    the program, or the program does what C leaves undefined. *)
Inductive outcome : Type :=
| Returned (code : Z)
| Exited (code : Z)
| Replaced
| Undefined.

(** What the programs cannot decide: the value a system call returns, given
    what the process did before and the arguments; what [fork] returns in
    the process at hand; whether [execvp] fails; what [basename] returns and
    what it leaves in the string it is given; the contents of an array that
    is not initialised. *)
Record env := {
  kernel : list event -> Z -> option (list string) -> Z -> Z -> Z;
  fork_result : Z;
  execvp_fails : bool;
  basename_result : string -> string;
  basename_leaves : string -> string;
  garbage : list Z
}.

(** A step either goes on with a value or ends the process. *)
Inductive result (A : Type) : Type :=
| Done (a : A)
| Stop (o : outcome).

Arguments Done {A} a.
Arguments Stop {A} o.

Definition P (A : Type) : Type := env -> list event -> result A * list event.

Definition ret {A : Type} (a : A) : P A := fun _ t => (Done a, t).

Definition stop {A : Type} (o : outcome) : P A := fun _ t => (Stop o, t).

Definition bind {A B : Type} (m : P A) (k : A -> P B) : P B :=
  fun e t =>
    match m e t with
    | (Done a, t') => k a e t'
    | (Stop o, t') => (Stop o, t')
    end.

Declare Scope tool_scope.
Delimit Scope tool_scope with tool.
Notation "x <- m ;; k" := (bind m (fun x => k))
  (at level 61, m at next level, right associativity) : tool_scope.
Notation "m ;; k" := (bind m (fun _ => k))
  (at level 61, right associativity) : tool_scope.

Definition emit (ev : event) : P unit := fun _ t => (Done tt, t ++ [ev]).

Definition printf (fmt : string) (args : list string) : P unit :=
  emit (Printf fmt args).

Definition puts (s : string) : P unit := emit (Puts s).

Definition perror (msg : string) : P unit := emit (Perror msg).

(** Conversion of the [long] a system call returns to [int]. *)
Definition to_int (z : Z) : Z := (z + 2 ^ 31) mod 2 ^ 32 - 2 ^ 31.

Definition syscall (number : Z) (names : option (list string))
  (count mode : Z) : P Z :=
  fun e t =>
    (Done (kernel e t number names count mode),
     t ++ [Syscall number names count mode]).

Definition fork : P Z := fun e t => (Done (fork_result e), t ++ [Fork (fork_result e)]).

(** [execvp] returns, with -1, only when it fails. *)
Definition execvp (file : string) (args : list string) : P Z :=
  fun e t =>
    (if execvp_fails e then Done (-1) else Stop Replaced,
     t ++ [Execvp file args]).

Definition wait : P unit := emit Wait.

Definition exit {A : Type} (code : Z) : P A := stop (Exited code).

(** [argv[i]]: a string, or the null pointer that ends [argv]. *)
Definition arg (argv : list string) (i : nat) : option string :=
  nth_error argv i.

(** [strcmp(p, s) == 0]; a null [p] is undefined. *)
Definition strcmp_is_0 (p : option string) (s : string) : P bool :=
  match p with
  | Some a => ret (String.eqb a s)
  | None => stop Undefined
  end.

(** [basename(p)]: the name it returns and the string it leaves in [p]; a
    null [p] is taken as undefined. *)
Definition basename (p : option string) : P (string * string) :=
  match p with
  | Some path =>
      fun e t => (Done (basename_result e path, basename_leaves e path), t)
  | None => stop Undefined
  end.

(** An array of [n] [char] that is not initialised. *)
Definition uninitialised (n : nat) : P (list Z) :=
  fun e t => (Done (firstn n (garbage e ++ repeat 0 n)), t).

(** The outcome of a program whose [main] is [m], and what it did. *)
Definition run (m : P Z) (e : env) : outcome * list event :=
  match m e [] with
  | (Done code, t) => (Returned code, t)
  | (Stop o, t) => (o, t)
  end.

End Tools.

(** ** [identity_map.c] *)

Module IdentityMap.

Import Tools.
Local Open Scope tool_scope.

Definition usage : list string :=
  ["Usage: ./identity-map <name | pid | command | help> <stable/testing> {arguments}" ++ LF;
   "Example1: ./identity-map command ls" ++ LF;
   "Example2: ./identity-map command ./a.out <arguments>" ++ LF;
   "Example3: ./identity-map name <1/2> blacksholes omp-csr gem5" ++ LF;
   "Example3: ./identity-map pid 1124 2346 11" ++ LF]%string.

Definition command_usage : list string :=
  ["Please provide a command to run" ++ LF;
   "Example1: ./identity-map command ls" ++ LF;
   "Example2: ./identity-map command ./a.out <arguments>" ++ LF]%string.

Definition help : list string :=
  ["Usage: ./identity-map <names | pid | command | help> {arguments}" ++ LF;
   "Example1: ./identity-map command ls" ++ LF;
   "Example2: ./identity-map command ./a.out <arguments>" ++ LF;
   "Example3: ./identity-map names blacksholes omp-csr gem5" ++ LF;
   "Example3: ./identity-map pid 1124 2346 11" ++ LF]%string.

Definition cannot_run : string :=
  ("Cannot run command provided. Run ./identity-map help for more information"
   ++ LF)%string.

(** A run of [printf] calls with constant texts. *)
Fixpoint print_lines (lines : list string) : P unit :=
  match lines with
  | [] => ret tt
  | l :: rest => printf l [] ;; print_lines rest
  end.

(** Lines 35 to 51: the branch of ["command"] once [argc >= 3]. *)
Definition run_command (argv : list string) : P Z :=
  b <- basename (arg argv 2) ;;
  let (process_name, argv2) := b in
  ret_ <- syscall 335 (Some [process_name]) 1 1 ;;
  pid <- fork ;;
  (if pid =? -1 then
     perror "Fork Failed !!"
   else if pid =? 0 then
     execvp argv2 (argv2 :: skipn 3 argv) ;;
     exit 0
   else
     printf ("Badger Trap launched with process %s" ++ LF)%string [argv2] ;;
     wait) ;;
  ret_ <- syscall 335 None 0 1 ;;
  ret (to_int ret_).

Definition main (argv : list string) : P Z :=
  let argc := Z.of_nat (List.length argv) in
  let ret_ := 0 in
  if argc <? 2 then
    print_lines usage ;;
    ret (-1)
  else
    command <- strcmp_is_0 (arg argv 1) "command" ;;
    if command then
      if argc <? 3 then
        print_lines command_usage ;;
        ret (-1)
      else
        run_command argv
    else
      name <- strcmp_is_0 (arg argv 1) "name" ;;
      stable <- (if name then strcmp_is_0 (arg argv 2) "stable"
                 else ret false) ;;
      if stable then
        ret_ <- syscall 335 (Some (skipn 3 argv)) (argc - 3) 1 ;;
        ret (to_int ret_)
      else
        name <- strcmp_is_0 (arg argv 1) "name" ;;
        testing <- (if name then strcmp_is_0 (arg argv 2) "testing"
                    else ret false) ;;
        if testing then
          ret_ <- syscall 335 (Some (skipn 3 argv)) (argc - 3) 2 ;;
          ret (to_int ret_)
        else
          pid <- strcmp_is_0 (arg argv 1) "pid" ;;
          if pid then
            ret_ <- syscall 335 (Some (skipn 2 argv)) (argc - 2) (-1) ;;
            ret (to_int ret_)
          else
            help_ <- strcmp_is_0 (arg argv 1) "help" ;;
            if help_ then
              print_lines help ;;
              ret (-1)
            else
              printf cannot_run [] ;;
              ret (-1).

End IdentityMap.

(** ** [apriori_paging_set_process.c] *)

Module AprioriPaging.

Import Tools.
Local Open Scope tool_scope.

Definition __NR_apriori_paging_alloc : Z := 333.

Definition showUsage : P unit :=
  printf (LF ++ " Usage : ./apriori_paging_set_process [proccess_name]" ++ LF)%string
         [].

(** The characters of a string as [char] values, and back. *)
Definition codes (s : string) : list Z :=
  map (fun a => Z.of_N (N_of_ascii a)) (list_ascii_of_string s).

Definition text (cs : list Z) : string :=
  string_of_list_ascii (map (fun c => ascii_of_N (Z.to_N c)) cs).

(** [strncpy(dest, src, n)]: the array [dest] after the call.  The
    characters of [src] up to its end are copied, and null characters
    written after them, until [n] cells are written. *)
Fixpoint strncpy (dest : list Z) (src : list Z) (n : nat) : list Z :=
  match n, dest with
  | O, _ => dest
  | S _, [] => []
  | S n', _ :: dest' =>
      match src with
      | [] => 0 :: strncpy dest' [] n'
      | c :: src' =>
          if c =? 0 then 0 :: strncpy dest' [] n'
          else c :: strncpy dest' src' n'
      end
  end.

(** The string an array holds: its characters before the first null one,
    if there is one in the array. *)
Fixpoint c_str (array : list Z) : option (list Z) :=
  match array with
  | [] => None
  | c :: rest =>
      if c =? 0 then Some []
      else match c_str rest with
           | Some cs => Some (c :: cs)
           | None => None
           end
  end.

(** [strncpy(proc, p, n)] for an argument [p]. *)
Definition strncpy_arg (proc : list Z) (p : option string) (n : nat)
  : P (list Z) :=
  match p with
  | Some s => ret (strncpy proc (codes s) n)
  | None => stop Undefined
  end.

(** [puts(proc)]; reading past the end of the array is undefined. *)
Definition puts_array (proc : list Z) : P unit :=
  match c_str proc with
  | Some cs => puts (text cs)
  | None => stop Undefined
  end.

Definition main (argv : list string) : P Z :=
  let argc := Z.of_nat (List.length argv) in
  proc <- uninitialised 32 ;;
  (if argc <? 2 then
     showUsage ;;
     exit 0
   else ret tt) ;;
  proc <- strncpy_arg proc (arg argv 1) 31 ;;
  syscall __NR_apriori_paging_alloc (Some (skipn 1 argv)) (argc - 1) 1 ;;
  puts_array proc ;;
  ret 0.

End AprioriPaging.

(** The calls a trace holds to the kernel's own entry points. *)
Definition tool_syscalls (t : list Tools.event)
  : list (Z * option (list string) * Z * Z) :=
  flat_map (fun ev =>
              match ev with
              | Tools.Syscall number names count mode =>
                  [(number, names, count, mode)]
              | _ => []
              end) t.

(** The steps of [command cmd args] up to the [fork]. *)
Definition command_start (e : Tools.env) (cmd : string) : list Tools.event :=
  [Tools.Syscall 335 (Some [Tools.basename_result e cmd]) 1 1;
   Tools.Fork (Tools.fork_result e)].

(** A string with no null character in it, as every C string is before its
    end. *)
Definition nul_free (s : string) : Prop :=
  Forall (fun c => c <> 0) (AprioriPaging.codes s).

(** The cell that [strncpy(proc, ..., 31)] never writes, as the environment
    left it. *)
Definition last_cell (e : Tools.env) : Z :=
  nth 31 (Tools.garbage e ++ repeat 0 32) 0.

(** An environment for a tool: the kernel answers [answer] to every call,
    [fork] returns [pid]. *)
Definition tool_env (answer pid : Z) (fails : bool) (cell : Z) : Tools.env :=
  {| Tools.kernel := fun _ _ _ _ _ => answer;
     Tools.fork_result := pid;
     Tools.execvp_fails := fails;
     Tools.basename_result := fun path => path;
     Tools.basename_leaves := fun path => path;
     Tools.garbage := repeat cell 32 |}.

(** * Lemmas *)

(** ** Machine integers and bits *)

Lemma wrap_range (z : Z) : 0 <= wrap z < 2 ^ 64.
Proof. apply Z.mod_pos_bound. reflexivity. Qed.

Lemma wrap_small (z : Z) : 0 <= z < 2 ^ 64 -> wrap z = z.
Proof. apply Z.mod_small. Qed.

Lemma wrap_step (a c : Z) :
  wrap (wrap (Z.shiftl a 8) + c) = wrap (a * 256 + c).
Proof.
  unfold wrap. rewrite Z.shiftl_mul_pow2 by lia.
  change (2 ^ 8) with 256. apply Zplus_mod_idemp_l.
Qed.

Lemma lor_low_bits (n x y : Z) :
  0 <= n -> 0 <= x < 2 ^ n -> Z.lor (y * 2 ^ n) x = y * 2 ^ n + x.
Proof.
  intros Hn Hx. apply Z.or_to_plus.
  apply Z.bits_inj'. intros i Hi.
  rewrite Z.land_spec, Z.bits_0, <- Z.shiftl_mul_pow2 by lia.
  destruct (Z.ltb_spec i n).
  - rewrite Z.shiftl_spec_low by lia. reflexivity.
  - destruct (Z.eq_dec x 0) as [->|];
      [rewrite Z.bits_0; apply andb_false_r|].
    rewrite (Z.bits_above_log2 x i); [apply andb_false_r|lia|].
    apply Z.log2_lt_pow2; [lia|].
    pose proof (Z.pow_le_mono_r 2 n i); lia.
Qed.

Lemma lor_shiftl_byte (x y : Z) :
  0 <= x < 2 ^ 8 -> Z.lor x (Z.shiftl y 8) = y * 256 + x.
Proof.
  intros Hx. rewrite Z.lor_comm, Z.shiftl_mul_pow2 by lia.
  apply (lor_low_bits 8 x y); [lia|exact Hx].
Qed.

Lemma rebuild_4096 (q m : Z) :
  0 <= m < 4096 -> Z.lor (q * 4096) (Z.land m (4096 - 1)) = q * 4096 + m.
Proof.
  intros Hm. change (4096 - 1) with (Z.ones 12).
  rewrite Z.land_ones, Z.mod_small by (change (2 ^ 12) with 4096; lia).
  apply (lor_low_bits 12 m q); [lia|exact Hm].
Qed.

Lemma testbit_63_range (v : Z) :
  0 <= v < 2 ^ 64 -> Z.testbit v 63 = false -> v < 2 ^ 63.
Proof.
  intros Hv Hbit. destruct (Z.ltb_spec v (2 ^ 63)) as [|Hge]; [assumption|].
  exfalso. rewrite Z.testbit_false in Hbit by lia.
  assert (H1 : v / 2 ^ 63 = 1)
    by (symmetry; apply Z.div_unique with (r := v - 2 ^ 63); lia).
  rewrite H1 in Hbit. discriminate Hbit.
Qed.

Lemma quotient_times_8 (virt_addr pagesize : Z) :
  0 <= virt_addr < 2 ^ 64 -> 16 <= pagesize ->
  0 <= virt_addr / pagesize * 8 < 2 ^ 63.
Proof.
  intros Hva Hps.
  assert (Hq : 0 <= virt_addr / pagesize) by (apply Z.div_pos; lia).
  assert (Hm : pagesize * (virt_addr / pagesize) <= virt_addr)
    by (apply Z.mul_div_le; lia).
  nia.
Qed.

Lemma page_present_bit (v : Z) : page_present v = Z.testbit v 63.
Proof.
  unfold page_present. rewrite Z.shiftl_1_l.
  destruct (Z.testbit v 63) eqn:E.
  - apply negb_true_iff, Z.eqb_neq. intros H.
    assert (T : Z.testbit (Z.land v (2 ^ 63)) 63 = true)
      by (rewrite Z.land_spec, E, Z.pow2_bits_true by lia; reflexivity).
    rewrite H, Z.bits_0 in T. discriminate.
  - apply negb_false_iff, Z.eqb_eq. apply Z.bits_inj'. intros i Hi.
    rewrite Z.land_spec, Z.bits_0, Z.pow2_bits_eqb by lia.
    destruct (Z.eqb_spec 63 i) as [<-|]; [rewrite E|]; auto using andb_false_r.
Qed.

Lemma pfn_mask_low_bits (v : Z) : pfn_mask v = v mod 2 ^ 55.
Proof.
  unfold pfn_mask.
  change (Z.shiftl 1 55 - 1) with (Z.ones 55).
  apply Z.land_ones. lia.
Qed.

(** ** The library calls and the environment *)

Lemma is_bigendian_host (w : world) (s : state) :
  is_bigendian w s = (big_endian_host w, s).
Proof. unfold is_bigendian. destruct (big_endian_host w); reflexivity. Qed.

Lemma unsigned_not_EOF (b : byte) : (byte.unsigned b =? EOF) = false.
Proof.
  apply Z.eqb_neq. pose proof (byte.unsigned_range b). unfold EOF. lia.
Qed.

Lemma unsigned_mod_256 (b : byte) : byte.unsigned b mod 256 = byte.unsigned b.
Proof. apply Z.mod_small. apply (byte.unsigned_range b). Qed.

Lemma pending_length (f : stream) (n : nat) :
  forall pos raw, pending f pos n = Some raw -> List.length raw = n.
Proof.
  induction n as [|n IH]; intros pos raw H; simpl in H.
  - now inversion H.
  - destruct (byte_at f pos); [|discriminate].
    destruct (pending f (pos + 1) n) eqn:E; [|discriminate].
    inversion H; subst. simpl. f_equal. eauto.
Qed.

Lemma pending_one_record (off : Z) (rest : list byte) :
  forall pre,
    pending (one_record off (pre ++ rest))
            (off + Z.of_nat (List.length pre)) (List.length rest)
    = Some rest.
Proof.
  induction rest as [|b rest IH]; intros pre; [reflexivity|].
  cbn [List.length pending one_record byte_at].
  replace (off + Z.of_nat (List.length pre) - off)
    with (Z.of_nat (List.length pre)) by lia.
  rewrite Nat2Z.id, nth_error_app2, Nat.sub_diag by lia. cbn [nth_error].
  replace ((off <=? off + Z.of_nat (List.length pre))
           && (off + Z.of_nat (List.length pre)
               <? off + Z.of_nat (List.length (pre ++ b :: rest))))
    with true.
  2:{ symmetry. apply andb_true_iff. split.
      - apply Z.leb_le. lia.
      - apply Z.ltb_lt. rewrite length_app. simpl. lia. }
  specialize (IH (pre ++ [b])).
  rewrite <- app_assoc, length_app in IH. cbn [app List.length] in IH.
  replace (off + Z.of_nat (List.length pre) + 1)
    with (off + Z.of_nat (List.length pre + 1)) by lia.
  fold (one_record off (pre ++ b :: rest)).
  rewrite IH. reflexivity.
Qed.

Lemma fetched_pagemap_world (big : bool) (pagesize off : Z) (raw : list byte)
  (virt_addr : Z) :
  List.length raw = 8%nat ->
  seek_offset (pagemap_world big pagesize off raw) virt_addr = off ->
  fetched (pagemap_world big pagesize off raw) virt_addr = Some raw.
Proof.
  intros Hlen Hoff. unfold fetched. rewrite Hoff.
  cbn [pagemap_world files]. unfold only_pagemap.
  rewrite String.eqb_refl. cbn [one_record fseek_status Z.eqb].
  change (Z.to_nat PAGEMAP_ENTRY) with 8%nat. rewrite <- Hlen.
  pose proof (pending_one_record off raw []) as P.
  cbn [List.length app Z.of_nat] in P. rewrite Z.add_0_r in P. exact P.
Qed.

Lemma skipn_length_app {A : Type} (l l' : list A) :
  skipn (List.length l) (l ++ l') = l'.
Proof. induction l; simpl; auto. Qed.

(** ** The first loop *)

Section FirstLoop.

Variables (f : stream) (w : world).

Lemma read_entry_filled (n : nat) :
  forall i c_buf s raw,
    pending f (position s) n = Some raw ->
    read_entry f n i c_buf w s =
      (Some (fill (big_endian_host w) raw i c_buf),
       {| open_streams := open_streams s;
          position := position s + Z.of_nat n;
          trace := trace s ++ map getc_event raw |}).
Proof.
  induction n as [|n IH]; intros i c_buf s raw H; simpl in H.
  - inversion H; subst. simpl. unfold ret. destruct s; simpl.
    now rewrite Z.add_0_r, app_nil_r.
  - destruct (byte_at f (position s)) as [b|] eqn:Eb; [|discriminate].
    destruct (pending f (position s + 1) n) as [bs|] eqn:Ebs; [|discriminate].
    inversion H; subst raw.
    cbn [read_entry]. unfold bind at 1. unfold getc at 1. rewrite Eb.
    rewrite unsigned_not_EOF. unfold bind at 1. rewrite is_bigendian_host.
    rewrite (IH _ _ _ bs) by exact Ebs.
    cbn [open_streams position trace fill map].
    do 2 f_equal; [lia|].
    now rewrite <- app_assoc.
Qed.

Lemma read_entry_short (n : nat) :
  forall i c_buf s,
    pending f (position s) n = None ->
    exists got,
      (List.length got < n)%nat /\
      read_entry f n i c_buf w s =
        (None,
         {| open_streams := pred (open_streams s);
            position := position s + Z.of_nat (List.length got);
            trace := trace s ++ map getc_event got ++ [Getc EOF; Fclose] |}).
Proof.
  induction n as [|n IH]; intros i c_buf s H; simpl in H; [discriminate|].
  cbn [read_entry]. unfold bind at 1. unfold getc at 1.
  destruct (byte_at f (position s)) as [b|] eqn:Eb.
  - destruct (pending f (position s + 1) n) as [bs|] eqn:Ebs; [discriminate|].
    rewrite unsigned_not_EOF. unfold bind at 1. rewrite is_bigendian_host.
    match goal with |- context [read_entry f n ?i' ?b' w ?s'] =>
      destruct (IH i' b' s' Ebs) as (got & Hlen & Hrun); rewrite Hrun
    end.
    exists (b :: got). split; [simpl; lia|].
    cbn [open_streams position trace map List.length].
    do 2 f_equal; [lia|].
    now rewrite <- app_assoc.
  - exists []. split; [simpl; lia|].
    change (EOF =? EOF) with true. cbv beta iota.
    unfold bind, fclose, ret. cbn [open_streams position trace map List.length].
    do 2 f_equal; [simpl; lia|].
    now rewrite <- app_assoc.
Qed.

End FirstLoop.

(** The buffer after the first loop has read a whole record. *)
Lemma fill_whole (big : bool) (raw : list byte) (c_buf : list Z) :
  List.length raw = 8%nat -> List.length c_buf = 8%nat ->
  fill big raw 0 c_buf =
    if big then map byte.unsigned raw else rev (map byte.unsigned raw).
Proof.
  intros Hraw Hbuf.
  do 9 (destruct raw as [|? raw]; try discriminate Hraw).
  do 9 (destruct c_buf as [|? c_buf]; try discriminate Hbuf).
  unfold fill, store. rewrite !unsigned_mod_256.
  destruct big; reflexivity.
Qed.

(** ** The second loop *)

Lemma horner_congr (cs : list Z) :
  forall x y, wrap x = wrap y -> wrap (horner cs x) = wrap (horner cs y).
Proof.
  induction cs as [|c cs IH]; intros x y H; simpl; [exact H|].
  apply IH. unfold wrap in *.
  rewrite <- (Zplus_mod_idemp_l (x * 256)), <- (Zplus_mod_idemp_l (y * 256)).
  rewrite <- (Zmult_mod_idemp_l x), <- (Zmult_mod_idemp_l y), H.
  reflexivity.
Qed.

Lemma assemble_horner (cs : list Z) :
  forall pre acc,
    wrap (assemble (List.length cs) (Z.of_nat (List.length pre)) (pre ++ cs) acc)
    = wrap (horner cs acc).
Proof.
  induction cs as [|c cs IH]; intros pre acc; [reflexivity|].
  cbn [List.length assemble horner fold_left].
  rewrite Nat2Z.id, app_nth2, Nat.sub_diag by lia. cbn [nth].
  replace (pre ++ c :: cs) with ((pre ++ [c]) ++ cs)
    by (rewrite <- app_assoc; reflexivity).
  replace (Z.of_nat (List.length pre) + 1)
    with (Z.of_nat (List.length (pre ++ [c])))
    by (rewrite length_app; simpl; lia).
  rewrite IH. apply horner_congr.
  rewrite wrap_step. unfold wrap. apply Zmod_mod.
Qed.

Lemma assemble_range (n : nat) :
  forall i c_buf acc,
    0 <= acc < 2 ^ 64 -> 0 <= assemble n i c_buf acc < 2 ^ 64.
Proof.
  induction n as [|n IH]; intros i c_buf acc H; simpl; [exact H|].
  apply IH, wrap_range.
Qed.

Lemma horner_le_combine (bs : list byte) :
  horner (map byte.unsigned (rev bs)) 0 = le_combine bs.
Proof.
  induction bs as [|b bs IH]; [reflexivity|].
  cbn [rev le_combine]. rewrite map_app. unfold horner in *.
  rewrite fold_left_app, IH. cbn [map fold_left].
  symmetry. apply lor_shiftl_byte, byte.unsigned_range.
Qed.

(** The value of a whole record: byte 0 is the most significant one on a
    big-endian host, byte 7 on a little-endian one. *)
Lemma assembled_value (big : bool) (raw : list byte) :
  List.length raw = 8%nat ->
  assembled big raw = le_combine (if big then rev raw else raw).
Proof.
  intros Hraw. unfold assembled.
  rewrite (fill_whole big raw c_buf_init Hraw eq_refl).
  set (cs := if big then map byte.unsigned raw else rev (map byte.unsigned raw)).
  assert (Hlen : List.length cs = 8%nat).
  { subst cs. destruct big; rewrite ?length_rev, length_map; exact Hraw. }
  assert (Hcs : cs = map byte.unsigned (rev (if big then rev raw else raw))).
  { subst cs. destruct big; [rewrite rev_involutive|rewrite map_rev]; reflexivity. }
  change (Z.to_nat PAGEMAP_ENTRY) with 8%nat. rewrite <- Hlen.
  rewrite <- (wrap_small (assemble _ _ _ _))
    by (apply assemble_range; lia).
  pose proof (assemble_horner cs [] 0) as A.
  cbn [List.length app Z.of_nat] in A. rewrite A, Hcs, horner_le_combine.
  apply wrap_small.
  pose proof (le_combine_bound (if big then rev raw else raw)) as B.
  replace (List.length (if big then rev raw else raw)) with 8%nat in B
    by (destruct big; rewrite ?length_rev; symmetry; exact Hraw).
  exact B.
Qed.

Lemma assembled_horner (big : bool) (raw : list byte) :
  List.length raw = 8%nat ->
  assembled big raw =
    horner (if big then map byte.unsigned raw
            else rev (map byte.unsigned raw)) 0.
Proof.
  intros Hraw. rewrite (assembled_value big raw Hraw), <- horner_le_combine.
  destruct big; [rewrite rev_involutive|rewrite map_rev]; reflexivity.
Qed.

Lemma assembled_range (big : bool) (raw : list byte) :
  0 <= assembled big raw < 2 ^ 64.
Proof. unfold assembled. apply assemble_range. lia. Qed.

(** A value laid out by a host is assembled back by that host. *)
Lemma assembled_value_bytes (big : bool) (v : Z) :
  0 <= v < 2 ^ 64 -> assembled big (value_bytes big v) = v.
Proof.
  intros Hv. rewrite assembled_value
    by (unfold value_bytes; destruct big; rewrite ?length_rev;
        apply length_le_split).
  unfold value_bytes. destruct big;
    rewrite ?rev_involutive, le_combine_split; apply Z.mod_small; exact Hv.
Qed.

(** The value assembled, laid out again by the host, is the record read. *)
Lemma value_bytes_assembled (big : bool) (raw : list byte) :
  List.length raw = 8%nat -> value_bytes big (assembled big raw) = raw.
Proof.
  intros Hlen. rewrite (assembled_value big raw Hlen). unfold value_bytes.
  destruct big.
  - replace 8%nat with (List.length (rev raw))
      by (rewrite length_rev; exact Hlen).
    rewrite split_le_combine. apply rev_involutive.
  - rewrite <- Hlen. apply split_le_combine.
Qed.

(** The value of a record, byte by byte. *)
Lemma assembled_bytes (big : bool) (b0 b1 b2 b3 b4 b5 b6 b7 : byte) :
  let u := byte.unsigned in
  assembled big [b0; b1; b2; b3; b4; b5; b6; b7] =
    if big
    then u b0 * 2 ^ 56 + u b1 * 2 ^ 48 + u b2 * 2 ^ 40 + u b3 * 2 ^ 32
         + u b4 * 2 ^ 24 + u b5 * 2 ^ 16 + u b6 * 2 ^ 8 + u b7
    else u b7 * 2 ^ 56 + u b6 * 2 ^ 48 + u b5 * 2 ^ 40 + u b4 * 2 ^ 32
         + u b3 * 2 ^ 24 + u b2 * 2 ^ 16 + u b1 * 2 ^ 8 + u b0.
Proof.
  intros u. rewrite assembled_horner by reflexivity. unfold horner.
  destruct big; cbn [map rev app fold_left]; subst u; lia.
Qed.

(** The two loops, one after the other as the call runs them, on a stream
    that holds a whole record. *)
Lemma read_entry_assemble (f : stream) (w : world) (s : state)
  (raw : list byte) (c_buf : list Z) :
  List.length c_buf = 8%nat ->
  pending f (position s) 8 = Some raw ->
  option_map (fun c_buf => assemble 8 0 c_buf 0)
             (fst (read_entry f 8 0 c_buf w s))
  = Some (assembled (big_endian_host w) raw).
Proof.
  intros Hb Hp. pose proof (pending_length _ _ _ _ Hp) as Hlen.
  rewrite (read_entry_filled f w 8 _ _ _ raw Hp). cbn [fst option_map].
  rewrite (fill_whole _ raw c_buf Hlen Hb).
  unfold assembled. rewrite (fill_whole _ raw c_buf_init Hlen eq_refl).
  reflexivity.
Qed.

(** ** The ways through [virtual_to_physical_address] *)

Section Call.

Variables (w : world) (s : state) (virt_addr : Z).

Lemma fetched_inv (raw : list byte) :
  fetched w virt_addr = Some raw ->
  exists f,
    files w page_mapping_file = Some f /\
    fseek_status f (seek_offset w virt_addr) = 0 /\
    pending f (seek_offset w virt_addr) 8 = Some raw.
Proof.
  unfold fetched. destruct (files w page_mapping_file) as [f|]; [|discriminate].
  destruct (Z.eqb_spec (fseek_status f (seek_offset w virt_addr)) 0);
    [|discriminate].
  intros H. exists f. auto.
Qed.

Lemma fetched_length (raw : list byte) :
  fetched w virt_addr = Some raw -> List.length raw = 8%nat.
Proof.
  intros H. destruct (fetched_inv _ H) as (f & _ & _ & P).
  exact (pending_length _ _ _ _ P).
Qed.

Lemma run_cannot_open :
  files w page_mapping_file = None ->
  virtual_to_physical_address virt_addr w s =
    (0, {| open_streams := open_streams s;
           position := position s;
           trace := trace s ++ [Fopen page_mapping_file false;
                                cannot_open_message] |}).
Proof.
  intros H. unfold virtual_to_physical_address, bind, fopen. rewrite H.
  unfold printf, emit, ret. cbn [open_streams position trace].
  now rewrite <- app_assoc.
Qed.

Lemma run_cannot_seek (f : stream) :
  files w page_mapping_file = Some f ->
  fseek_status f (seek_offset w virt_addr) <> 0 ->
  virtual_to_physical_address virt_addr w s =
    (0, {| open_streams := open_streams s;
           position := 0;
           trace := trace s ++
             [Fopen page_mapping_file true;
              Fseek (seek_offset w virt_addr)
                    (fseek_status f (seek_offset w virt_addr));
              cannot_seek_message; Perror "Failed to do fseek!"; Fclose] |}).
Proof.
  intros H Hs. apply Z.eqb_neq in Hs.
  unfold virtual_to_physical_address, bind, fopen. rewrite H.
  unfold getpagesize, fseek. fold (seek_offset w virt_addr). rewrite Hs.
  unfold printf, perror, emit, fclose, ret.
  cbn [negb open_streams position trace pred].
  now rewrite <- !app_assoc.
Qed.

Lemma run_short (f : stream) :
  files w page_mapping_file = Some f ->
  fseek_status f (seek_offset w virt_addr) = 0 ->
  pending f (seek_offset w virt_addr) 8 = None ->
  exists got,
    (List.length got < 8)%nat /\
    virtual_to_physical_address virt_addr w s =
      (0, {| open_streams := open_streams s;
             position := seek_offset w virt_addr + Z.of_nat (List.length got);
             trace := trace s ++
               [Fopen page_mapping_file true; Fseek (seek_offset w virt_addr) 0]
               ++ map getc_event got ++ [Getc EOF; Fclose] |}).
Proof.
  intros H Hs Hp.
  unfold virtual_to_physical_address, bind, fopen. rewrite H.
  unfold getpagesize, fseek. fold (seek_offset w virt_addr). rewrite Hs.
  cbn [negb Z.eqb open_streams position trace].
  change (Z.to_nat PAGEMAP_ENTRY) with 8%nat.
  match goal with |- context [read_entry f 8 ?i ?b w ?s'] =>
    destruct (read_entry_short f w 8 i b s' Hp) as (got & Hlen & Hrun);
    rewrite Hrun
  end.
  exists got. split; [exact Hlen|].
  unfold ret. cbn [open_streams position trace pred].
  now rewrite <- !app_assoc.
Qed.

Lemma run_whole (raw : list byte) :
  fetched w virt_addr = Some raw ->
  virtual_to_physical_address virt_addr w s =
    let v := assembled (big_endian_host w) raw in
    (if page_present v
     then Z.lor (wrap (pfn_mask v * wrap (page_size w)))
                (Z.land virt_addr (wrap (page_size w - 1)))
     else v,
     {| open_streams := open_streams s;
        position := seek_offset w virt_addr + 8;
        trace := trace s ++
          [Fopen page_mapping_file true; Fseek (seek_offset w virt_addr) 0]
          ++ map getc_event raw
          ++ (if page_present v then [] else [not_present_message])
          ++ [Fclose] |}).
Proof.
  intros Hf. destruct (fetched_inv _ Hf) as (f & H & Hs & Hp).
  unfold virtual_to_physical_address, bind, fopen. rewrite H.
  unfold getpagesize, fseek. fold (seek_offset w virt_addr). rewrite Hs.
  cbn [negb Z.eqb open_streams position trace].
  rewrite (read_entry_filled f w (Z.to_nat PAGEMAP_ENTRY) _ _ _ raw)
    by exact Hp.
  cbn [open_streams position trace].
  change (Z.of_nat (Z.to_nat PAGEMAP_ENTRY)) with 8.
  unfold assembled.
  set (v := assemble _ _ _ _). cbv zeta. unfold translate.
  destruct (page_present v).
  - unfold bind, sysconf_SC_PAGESIZE, fclose, ret.
    cbn [open_streams position trace pred].
    now rewrite <- !app_assoc.
  - unfold bind, printf, emit, fclose, ret.
    cbn [open_streams position trace pred].
    now rewrite <- !app_assoc.
Qed.

(** What the call returns when it has read the record [raw]. *)
Lemma run_whole_value (raw : list byte) :
  fetched w virt_addr = Some raw ->
  fst (virtual_to_physical_address virt_addr w s) =
    let v := assembled (big_endian_host w) raw in
    if Z.testbit v 63
    then Z.lor (wrap (Z.land v 0x7FFFFFFFFFFFFF * wrap (page_size w)))
               (Z.land virt_addr (wrap (page_size w - 1)))
    else v.
Proof.
  intros Hf. rewrite (run_whole raw Hf). cbv zeta. cbn [fst].
  rewrite page_present_bit.
  generalize (assembled (big_endian_host w) raw). intros v. reflexivity.
Qed.

(** A call that read the record [raw] and printed "Page not present" found
    bit 63 clear. *)
Lemma run_whole_not_present (raw : list byte) :
  fetched w virt_addr = Some raw ->
  In not_present_message
     (events_since s (snd (virtual_to_physical_address virt_addr w s))) ->
  fst (virtual_to_physical_address virt_addr w s)
  = assembled (big_endian_host w) raw.
Proof.
  intros Hf. rewrite (run_whole raw Hf). cbv zeta.
  unfold events_since. cbn [fst snd trace]. rewrite skipn_length_app.
  generalize (assembled (big_endian_host w) raw). intros v.
  generalize (page_present v). intros [|]; [|reflexivity].
  intros Hin. exfalso. cbn [app In] in Hin.
  destruct Hin as [E|[E|Hin]]; [discriminate E|discriminate E|].
  apply in_app_or in Hin. destruct Hin as [Hin|Hin].
  - apply in_map_iff in Hin. destruct Hin as (b & E & _). discriminate E.
  - destruct Hin as [E|[]]. discriminate E.
Qed.

End Call.

(** The three ways through a call that opened [f] (hypothesis [H]): a whole
    record was read ([raw], [Hf]), the data ended early ([got], [Hlen]), or
    the seek failed; [Hs] is what [fseek] answered. *)
Ltac ways w s virt_addr f H :=
  destruct (Z.eq_dec (fseek_status f (seek_offset w virt_addr)) 0) as [Hs|Hs];
  [ destruct (pending f (seek_offset w virt_addr) 8) as [raw|] eqn:Hp;
    [ assert (Hf : fetched w virt_addr = Some raw)
        by (unfold fetched; rewrite H, Hs; exact Hp);
      rewrite (run_whole w s virt_addr raw Hf); cbv zeta
    | destruct (run_short w s virt_addr f H Hs Hp) as (got & Hlen & ->) ]
  | rewrite (run_cannot_seek w s virt_addr f H Hs) ].

Lemma inner_getc (got : list byte) : Forall inner (map getc_event got).
Proof. induction got; simpl; constructor; simpl; auto. Qed.

Lemma run_opened (w : world) (s : state) (virt_addr : Z) (f : stream) :
  files w page_mapping_file = Some f ->
  exists r pos mid,
    virtual_to_physical_address virt_addr w s =
      (r, {| open_streams := open_streams s;
             position := pos;
             trace := trace s ++ Fopen page_mapping_file true :: mid ++ [Fclose] |})
    /\ Forall inner mid.
Proof.
  intros H. ways w s virt_addr f H.
  - set (v := assembled (big_endian_host w) raw).
    eexists _, _,
      (Fseek (seek_offset w virt_addr) 0 :: map getc_event raw
       ++ (if page_present v then [] else [not_present_message])).
    split.
    + cbn [app]. rewrite <- !app_assoc. reflexivity.
    + constructor; [exact I|]. apply Forall_app. split; [apply inner_getc|].
      destruct (page_present v); [constructor|].
      constructor; [right; reflexivity|constructor].
  - eexists _, _,
      (Fseek (seek_offset w virt_addr) 0 :: map getc_event got ++ [Getc EOF]).
    split.
    + cbn [app]. rewrite <- !app_assoc. reflexivity.
    + constructor; [exact I|]. apply Forall_app. split; [apply inner_getc|].
      repeat constructor.
  - eexists _, _,
      [Fseek (seek_offset w virt_addr)
             (fseek_status f (seek_offset w virt_addr));
       cannot_seek_message; Perror "Failed to do fseek!"].
    split; [reflexivity|].
    constructor; [exact I|]. constructor; [left; reflexivity|].
    constructor; [exact I|constructor].
Qed.

Lemma inner_not_cannot_open (mid : list event) :
  Forall inner mid -> ~ In cannot_open_message mid.
Proof.
  intros Hmid Hin. rewrite Forall_forall in Hmid.
  destruct (Hmid _ Hin) as [E|E]; discriminate E.
Qed.

Lemma inner_not_fclose (mid : list event) :
  Forall inner mid -> ~ In Fclose mid.
Proof.
  intros Hmid Hin. rewrite Forall_forall in Hmid. exact (Hmid _ Hin).
Qed.

Lemma inner_not_fopen (mid : list event) (path : string) (opened : bool) :
  Forall inner mid -> ~ In (Fopen path opened) mid.
Proof.
  intros Hmid Hin. rewrite Forall_forall in Hmid. exact (Hmid _ Hin).
Qed.

Lemma scanf_calls_app (t t' : list event) :
  scanf_calls (t ++ t') = (scanf_calls t + scanf_calls t')%nat.
Proof. unfold scanf_calls. now rewrite filter_app, length_app. Qed.

Lemma inner_no_scanf (mid : list event) :
  Forall inner mid -> scanf_calls mid = 0%nat.
Proof.
  induction 1 as [|e mid He _ IH]; [reflexivity|].
  unfold scanf_calls in *. cbn [filter].
  destruct e; try contradiction; exact IH.
Qed.

Lemma run_no_scanf (w : world) (s : state) (virt_addr : Z) :
  scanf_calls (trace (snd (virtual_to_physical_address virt_addr w s)))
  = scanf_calls (trace s).
Proof.
  destruct (files w page_mapping_file) as [f|] eqn:E.
  - destruct (run_opened w s virt_addr f E) as (r & pos & mid & -> & Hmid).
    cbn [snd trace].
    change (Fopen page_mapping_file true :: mid ++ [Fclose])
      with ([Fopen page_mapping_file true] ++ mid ++ [Fclose]).
    rewrite !scanf_calls_app, (inner_no_scanf mid Hmid). cbn. lia.
  - rewrite (run_cannot_open w s virt_addr E). cbn [snd trace].
    rewrite scanf_calls_app. cbn. lia.
Qed.

(** The twin of [r] resolves the address [r mod 4096] to [r]. *)
Lemma twin_resolves (r : Z) (s : state) :
  0 <= r < 2 ^ 63 ->
  fetched (twin_world r) (r mod 4096)
  = Some (value_bytes false (2 ^ 63 + r / 4096))
  /\ Z.testbit (assembled false (value_bytes false (2 ^ 63 + r / 4096))) 63
     = true
  /\ fst (virtual_to_physical_address (r mod 4096) (twin_world r) s) = r.
Proof.
  intros Hr.
  assert (Hq : 0 <= r / 4096 < 2 ^ 51).
  { split; [apply Z.div_pos; lia|]. apply Z.div_lt_upper_bound; lia. }
  assert (Hm : 0 <= r mod 4096 < 4096) by (apply Z.mod_pos_bound; lia).
  assert (Hv : assembled false (value_bytes false (2 ^ 63 + r / 4096))
               = 2 ^ 63 + r / 4096)
    by (apply assembled_value_bytes; lia).
  assert (Hbit : Z.testbit (2 ^ 63 + r / 4096) 63 = true).
  { apply Z.testbit_true; [lia|].
    replace ((2 ^ 63 + r / 4096) / 2 ^ 63) with 1; [reflexivity|].
    apply Z.div_unique with (r := r / 4096); lia. }
  assert (Hf : fetched (twin_world r) (r mod 4096)
               = Some (value_bytes false (2 ^ 63 + r / 4096))).
  { apply fetched_pagemap_world; [apply length_le_split|].
    unfold seek_offset, file_offset_of, pagemap_world, page_size.
    rewrite (wrap_small 4096), (Z.div_small (r mod 4096) 4096) by lia.
    reflexivity. }
  split; [exact Hf|]. split; [rewrite Hv; exact Hbit|].
  rewrite (run_whole _ s _ _ Hf). cbv zeta.
  cbn [twin_world pagemap_world big_endian_host page_size].
  rewrite Hv, page_present_bit, Hbit, pfn_mask_low_bits. cbn [fst].
  replace ((2 ^ 63 + r / 4096) mod 2 ^ 55) with (r / 4096).
  2:{ apply Z.mod_unique with (q := 2 ^ 8); lia. }
  rewrite (wrap_small 4096), (wrap_small (4096 - 1)) by lia.
  rewrite wrap_small by lia.
  rewrite rebuild_4096 by exact Hm.
  pose proof (Z.div_mod r 4096). lia.
Qed.

(** ** The loop of [main] *)

(** Runs the call the goal is about to make, with its result [phys_addr],
    the state [s2] it leaves, and [N]: it called no [scanf]. *)
Ltac step_call w :=
  match goal with
  | |- context [virtual_to_physical_address ?a w ?s1] =>
      pose proof (run_no_scanf w s1 a) as N;
      destruct (virtual_to_physical_address a w s1) as [phys_addr s2];
      cbn [snd trace] in N
  end.

Lemma strtoul_value_range (v : Z) : 0 <= strtoul_value v < 2 ^ 64.
Proof.
  unfold strtoul_value, ULONG_MAX.
  destruct (Z.abs v <? 2 ^ 64); [apply wrap_range|lia].
Qed.

Lemma strtoul_value_small (v : Z) :
  0 <= v < 2 ^ 64 -> strtoul_value v = v.
Proof.
  intros H. unfold strtoul_value.
  destruct (Z.ltb_spec (Z.abs v) (2 ^ 64)); [apply wrap_small; exact H|lia].
Qed.

(** Only the numeral zero is read as zero. *)
Lemma strtoul_value_0 (v : Z) : strtoul_value v = 0 <-> v = 0.
Proof.
  split; [|intros ->; reflexivity].
  unfold strtoul_value, ULONG_MAX, wrap.
  destruct (Z.ltb_spec (Z.abs v) (2 ^ 64)) as [H|H]; [|lia].
  intros E. apply Z.mod_divide in E; [|lia]. destruct E as [q E]. lia.
Qed.

Lemma main_loop_stop (stdin : list scan_item) (addr : Z) (w : world)
  (s : state) :
  addr <= 0 -> main_loop stdin addr w s = (Returned 0, s).
Proof.
  intros H. apply Z.ltb_ge in H.
  destruct stdin; cbn [main_loop]; rewrite Z.gtb_ltb, H; reflexivity.
Qed.

Lemma main_loop_failed (stdin : list scan_item) (addr : Z) (w : world)
  (s : state) :
  0 < addr ->
  stdin = [] \/ (exists rest, stdin = NoMatch :: rest) ->
  main_loop stdin addr w s =
    (Aborted, {| open_streams := open_streams s;
                 position := position s;
                 trace := trace s ++ failed_read (fst (scanf_lx stdin addr)) |}).
Proof.
  intros H Hin. apply Z.gtb_lt in H.
  destruct Hin as [->|[rest ->]]; cbn [main_loop]; rewrite H;
    unfold bind, printf, emit, ret; cbn;
    rewrite <- !app_assoc; reflexivity.
Qed.

Lemma main_loop_read (v : Z) (rest : list scan_item) (addr : Z) (w : world)
  (s : state) :
  0 < addr ->
  main_loop (Hex v :: rest) addr w s =
    let s1 := {| open_streams := open_streams s;
                 position := position s;
                 trace := trace s ++ [Printf "addr:" []; Scanf "%lx" 1] |} in
    let (phys_addr, s2) := virtual_to_physical_address (strtoul_value v) w s1 in
    main_loop rest (strtoul_value v) w
      {| open_streams := open_streams s2;
         position := position s2;
         trace := trace s2 ++
           [Printf ("vaddr:%lx, paddr:%lx" ++ LF)%string
                   [ANum (strtoul_value v); ANum phys_addr]] |}.
Proof.
  intros H. apply Z.gtb_lt in H.
  cbn [main_loop]. rewrite H.
  unfold bind at 1. unfold printf at 1, emit at 1.
  cbn [scanf_lx]. unfold bind at 1, emit at 1.
  cbn [negb Z.eqb Pos.eqb open_streams position trace].
  unfold bind at 1. rewrite <- app_assoc. cbn [app].
  destruct (virtual_to_physical_address (strtoul_value v) w _) as [phys_addr s2].
  reflexivity.
Qed.

(** The loop on a run of non-zero addresses followed by [tail]. *)
Lemma main_loop_run (w : world) (tail : list scan_item) (vs : list Z) :
  Forall (fun v => v <> 0) vs ->
  forall addr s,
    0 < addr ->
    exists addr' s',
      0 < addr'
      /\ scanf_calls (trace s')
         = (scanf_calls (trace s) + List.length vs)%nat
      /\ main_loop (map Hex vs ++ tail) addr w s = main_loop tail addr' w s'.
Proof.
  induction 1 as [|v vs Hv _ IH]; intros addr s Haddr.
  - exists addr, s. cbn. split; [exact Haddr|]. split; [lia|reflexivity].
  - cbn [map app]. rewrite (main_loop_read v _ addr w s Haddr). cbv zeta.
    step_call w.
    assert (Hpos : 0 < strtoul_value v).
    { pose proof (strtoul_value_range v). pose proof (strtoul_value_0 v). lia. }
    match goal with |- context [main_loop _ (strtoul_value v) w ?s3] =>
      destruct (IH (strtoul_value v) s3 Hpos) as (addr' & s' & Ha & Hc & Hrun)
    end.
    exists addr', s'. split; [exact Ha|]. split; [|exact Hrun].
    rewrite Hc. cbn [trace List.length].
    rewrite scanf_calls_app, N, scanf_calls_app. cbn. lia.
Qed.

Lemma main_prelude (argv0 argv1 : string) (addr_ptr : Z)
  (stdin : list scan_item) (w : world) (s : state) :
  exists s',
    scanf_calls (trace s') = scanf_calls (trace s)
    /\ main argv0 argv1 addr_ptr stdin w s = main_loop stdin 1 w s'.
Proof.
  unfold main. cbv zeta. unfold bind at 1, printf at 1, emit at 1.
  unfold bind at 1.
  step_call w. unfold bind at 1, printf at 1, emit at 1.
  eexists. split; [|reflexivity].
  cbn [trace]. rewrite scanf_calls_app, N, scanf_calls_app. cbn. lia.
Qed.

(** * The specification, claim by claim *)

(** ** The resolver on a present page *)

(** C1.  When the record read for [virt_addr] has bit 63 set, the call
    returns [page_frame_number * page_size | (virt_addr & (page_size - 1))],
    the product taken in 64-bit arithmetic like every [uintptr_t] expression
    (and exactly when it fits 64 bits), without reporting the page as absent;
    with a page size of 4096, frame [0x123] and address [0x456789] this is
    [0x123789]. *)
Theorem resident_physical_address
  (w : world) (s : state) (virt_addr : Z) (raw : list byte) :
  0 < page_size w < 2 ^ 63 ->
  fetched w virt_addr = Some raw ->
  Z.testbit (assembled (big_endian_host w) raw) 63 = true ->
  let page_frame_number :=
    Z.land (assembled (big_endian_host w) raw) 0x7FFFFFFFFFFFFF in
  let physical_address := fst (virtual_to_physical_address virt_addr w s) in
  physical_address =
    Z.lor (wrap (page_frame_number * page_size w))
          (Z.land virt_addr (page_size w - 1))
  /\ (page_frame_number * page_size w < 2 ^ 64 ->
      physical_address =
        Z.lor (page_frame_number * page_size w)
              (Z.land virt_addr (page_size w - 1)))
  /\ trace (snd (virtual_to_physical_address virt_addr w s)) =
       trace s ++
       [Fopen page_mapping_file true; Fseek (seek_offset w virt_addr) 0]
       ++ map getc_event raw ++ [Fclose]
  /\ (page_size w = 4096 -> page_frame_number = 0x123 ->
      virt_addr = 0x456789 -> physical_address = 0x123789).
Proof.
  intros Hps Hf Hbit page_frame_number physical_address.
  assert (E : physical_address =
              Z.lor (wrap (page_frame_number * page_size w))
                    (Z.land virt_addr (page_size w - 1))).
  { subst physical_address page_frame_number.
    rewrite (run_whole w s virt_addr raw Hf). cbv zeta.
    rewrite page_present_bit, Hbit. cbn [fst].
    rewrite !(wrap_small (page_size w)), (wrap_small (page_size w - 1)) by lia.
    reflexivity. }
  split; [exact E|]. split; [|split].
  - intros Hfit. rewrite E, wrap_small; [reflexivity|].
    split; [|exact Hfit].
    apply Z.mul_nonneg_nonneg; [|lia].
    subst page_frame_number. apply Z.land_nonneg. right. lia.
  - rewrite (run_whole w s virt_addr raw Hf). cbv zeta.
    rewrite page_present_bit, Hbit. reflexivity.
  - intros H4096 Hpfn Hva. rewrite E, H4096, Hpfn, Hva. reflexivity.
Qed.

Lemma resident_physical_address_witness :
  fst (virtual_to_physical_address 0x456789 frame_0x123_world initial_state)
  = 0x123789.
Proof.
  refine (proj2 (proj2 (proj2
    (resident_physical_address frame_0x123_world initial_state 0x456789
       (value_bytes false 0x8000000000000123) _ _ _))) _ _ _);
    vm_compute; auto.
Defined.

(** ** The decoding of a record *)

(** C2.  When bit 63 of the assembled value is set, the test of line 85
    succeeds and the mask of line 86 leaves the value masked with
    [0x007FFFFFFFFFFFFF], its low 55 bits; [0x8000000000000001] gives a
    present page in frame 1. *)
Theorem decode_present (big : bool) (raw : list byte) :
  Z.testbit (assembled big raw) 63 = true ->
  page_present (assembled big raw) = true
  /\ pfn_mask (assembled big raw)
     = Z.land (assembled big raw) 0x007FFFFFFFFFFFFF
  /\ pfn_mask (assembled big raw) = assembled big raw mod 2 ^ 55
  /\ pfn_mask (assembled big raw) = GET_PFN (assembled big raw)
  /\ (assembled big raw = 0x8000000000000001 ->
      page_present (assembled big raw) = true
      /\ pfn_mask (assembled big raw) = 1).
Proof.
  intros Hbit. rewrite page_present_bit, Hbit.
  generalize (assembled big raw). intros v.
  split; [reflexivity|]. split; [reflexivity|].
  split; [apply pfn_mask_low_bits|]. split; [reflexivity|].
  intros ->. split; reflexivity.
Qed.

Lemma decode_present_witness :
  assembled false (value_bytes false 0x8000000000000001) = 0x8000000000000001
  /\ page_present (assembled false (value_bytes false 0x8000000000000001))
     = true
  /\ pfn_mask (assembled false (value_bytes false 0x8000000000000001)) = 1.
Proof.
  split; [vm_compute; reflexivity|].
  refine (proj2 (proj2 (proj2 (proj2
    (decode_present false (value_bytes false 0x8000000000000001) _)))) _);
    vm_compute; reflexivity.
Defined.

(** C3.  When bit 63 of the assembled value is clear, whatever the other
    bits, the test of line 85 fails: the call prints "Page not present",
    applies no frame arithmetic and hands back the record as it is.  The
    record of eight zero bytes is such a record. *)
Theorem not_resident_report
  (w : world) (s : state) (virt_addr : Z) (raw : list byte) :
  fetched w virt_addr = Some raw ->
  Z.testbit (assembled (big_endian_host w) raw) 63 = false ->
  page_present (assembled (big_endian_host w) raw) = false
  /\ trace (snd (virtual_to_physical_address virt_addr w s)) =
       trace s ++
       [Fopen page_mapping_file true; Fseek (seek_offset w virt_addr) 0]
       ++ map getc_event raw ++ [not_present_message; Fclose]
  /\ fst (virtual_to_physical_address virt_addr w s)
     = assembled (big_endian_host w) raw
  /\ page_present (assembled (big_endian_host w) zero_record) = false.
Proof.
  intros Hf Hbit. rewrite (run_whole w s virt_addr raw Hf). cbv zeta.
  rewrite !page_present_bit, Hbit. cbn [fst snd trace].
  repeat split.
  destruct (big_endian_host w); vm_compute; reflexivity.
Qed.

Lemma not_resident_report_witness :
  trace (snd (virtual_to_physical_address 0x456789 swapped_world initial_state))
  = [Fopen page_mapping_file true; Fseek 8880 0;
     Getc 0x23; Getc 0x01; Getc 0; Getc 0; Getc 0; Getc 0; Getc 0; Getc 0x40;
     not_present_message; Fclose]
  /\ fst (virtual_to_physical_address 0x456789 swapped_world initial_state)
     = 0x4000000000000123.
Proof.
  refine ((fun H => conj (proj1 (proj2 H)) (proj1 (proj2 (proj2 H))))
    (not_resident_report swapped_world initial_state 0x456789
       (value_bytes false 0x4000000000000123) _ _));
    vm_compute; reflexivity.
Defined.

(** ** Byte order *)

(** C4.  The macro [is_bigendian()] finds the byte order of the host.  On
    a stream that holds the bytes [b0] to [b7], the first loop leaves them in
    [c_buf] in the order read on a big-endian host and in reverse on a
    little-endian one, and the second loop makes of the buffer the value
    whose most significant byte is [b0] on a big-endian host and [b7] on a
    little-endian one.  That value is the one the call decodes and resolves.
    So a 64-bit value [v] laid out by hosts of either byte order, each in
    its own, is read back as [v] by both, and the two calls return the same
    result: the one decoded from [v]. *)
Theorem endianness_correction
  (w : world) (b0 b1 b2 b3 b4 b5 b6 b7 : byte) :
  let u := byte.unsigned in
  let record := [b0; b1; b2; b3; b4; b5; b6; b7] in
  let read_val :=
    if big_endian_host w
    then u b0 * 2 ^ 56 + u b1 * 2 ^ 48 + u b2 * 2 ^ 40 + u b3 * 2 ^ 32
         + u b4 * 2 ^ 24 + u b5 * 2 ^ 16 + u b6 * 2 ^ 8 + u b7
    else u b7 * 2 ^ 56 + u b6 * 2 ^ 48 + u b5 * 2 ^ 40 + u b4 * 2 ^ 32
         + u b3 * 2 ^ 24 + u b2 * 2 ^ 16 + u b1 * 2 ^ 8 + u b0 in
  let resolved (v virt_addr : Z) :=
    if Z.testbit v 63
    then Z.lor (wrap (Z.land v 0x7FFFFFFFFFFFFF * wrap (page_size w)))
               (Z.land virt_addr (wrap (page_size w - 1)))
    else v in
  (forall s, is_bigendian w s = (big_endian_host w, s))
  /\ (forall f s c_buf,
        List.length c_buf = 8%nat ->
        pending f (position s) 8 = Some record ->
        fst (read_entry f 8 0 c_buf w s)
        = Some (if big_endian_host w
                then [u b0; u b1; u b2; u b3; u b4; u b5; u b6; u b7]
                else [u b7; u b6; u b5; u b4; u b3; u b2; u b1; u b0])
        /\ option_map (fun c_buf => assemble 8 0 c_buf 0)
                      (fst (read_entry f 8 0 c_buf w s))
           = Some read_val)
  /\ (forall s virt_addr,
        fetched w virt_addr = Some record ->
        fst (virtual_to_physical_address virt_addr w s)
        = resolved read_val virt_addr)
  /\ (forall v w' s s' virt_addr,
        0 <= v < 2 ^ 64 ->
        big_endian_host w' = negb (big_endian_host w) ->
        page_size w' = page_size w ->
        fetched w virt_addr = Some (value_bytes (big_endian_host w) v) ->
        fetched w' virt_addr = Some (value_bytes (big_endian_host w') v) ->
        fst (virtual_to_physical_address virt_addr w s) = resolved v virt_addr
        /\ fst (virtual_to_physical_address virt_addr w' s')
           = resolved v virt_addr).
Proof.
  intros u record read_val resolved.
  pose proof (assembled_bytes (big_endian_host w) b0 b1 b2 b3 b4 b5 b6 b7)
    as Hval.
  cbv zeta in Hval. fold u record read_val in Hval.
  split; [intros s; apply is_bigendian_host|]. split; [|split].
  - intros f s c_buf Hb Hp. split.
    + rewrite (read_entry_filled f w 8 _ _ _ record Hp). cbn [fst].
      rewrite (fill_whole _ record c_buf eq_refl Hb).
      destruct (big_endian_host w); reflexivity.
    + rewrite (read_entry_assemble f w s record c_buf Hb Hp), Hval.
      reflexivity.
  - intros s virt_addr Hf.
    rewrite (run_whole_value w s virt_addr record Hf), Hval. reflexivity.
  - intros v w' s s' virt_addr Hv Hw' Hps Hf Hf'.
    rewrite (run_whole_value w s virt_addr _ Hf),
      (run_whole_value w' s' virt_addr _ Hf').
    rewrite !assembled_value_bytes by exact Hv. rewrite Hps.
    split; reflexivity.
Qed.

Lemma endianness_correction_witness :
  fst (virtual_to_physical_address 0x456789 frame_0x123_world initial_state)
  = 0x123789
  /\ fst (virtual_to_physical_address 0x456789 frame_0x123_big_world
                                      initial_state)
     = 0x123789.
Proof.
  refine (proj2 (proj2 (proj2
    (endianness_correction frame_0x123_world
       Byte.x23 Byte.x01 Byte.x00 Byte.x00 Byte.x00 Byte.x00 Byte.x00 Byte.x80)))
    0x8000000000000123 frame_0x123_big_world initial_state initial_state
    0x456789 _ _ _ _ _).
  - split; [discriminate|reflexivity].
  - reflexivity.
  - reflexivity.
  - reflexivity.
  - reflexivity.
Defined.

(** ** Failing to open, to seek, or to read *)

(** C5, as the claim states it: the value returned when the mapping file
    cannot be opened would be told apart from every other outcome.  It is
    not: the call returns 0, which is also what a present page in frame 0
    resolves to at a page-aligned address, and what a failed seek and a
    missing record return. *)
Lemma open_failure_value_not_distinct :
  files no_pagemap_world page_mapping_file = None
  /\ fetched frame_0_world 0 = Some (value_bytes false 0x8000000000000000)
  /\ page_present (assembled false (value_bytes false 0x8000000000000000))
     = true
  /\ fst (virtual_to_physical_address 0 no_pagemap_world initial_state)
     = fst (virtual_to_physical_address 0 frame_0_world initial_state)
  /\ fst (virtual_to_physical_address 0 no_pagemap_world initial_state)
     = fst (virtual_to_physical_address 0 unseekable_world initial_state)
  /\ fst (virtual_to_physical_address 0 no_pagemap_world initial_state)
     = fst (virtual_to_physical_address 0 empty_pagemap_world initial_state).
Proof. vm_compute. repeat split. Qed.

(** C5, amended.  When the mapping file cannot be opened, the call returns 0
    for every address, having opened, sought and read nothing, and prints
    "Error! Cannot open /proc/self/pagemap. Please, run as root.".  The
    message, which no call that opens the file prints, is what tells the
    failure apart; the returned 0 does not. *)
Theorem open_failure_returns_zero
  (w : world) (s : state) (virt_addr : Z) :
  files w page_mapping_file = None ->
  virtual_to_physical_address virt_addr w s =
    (0, {| open_streams := open_streams s;
           position := position s;
           trace := trace s ++ [Fopen page_mapping_file false;
                                cannot_open_message] |})
  /\ cannot_open_message =
       Printf ("Error! Cannot open %s. Please, run as root." ++ LF)%string
              [AStr "/proc/self/pagemap"]
  /\ (forall w' s' virt_addr',
        files w' page_mapping_file <> None ->
        ~ In cannot_open_message
             (events_since s'
                (snd (virtual_to_physical_address virt_addr' w' s')))).
Proof.
  intros H. split; [exact (run_cannot_open w s virt_addr H)|].
  split; [reflexivity|].
  intros w' s' virt_addr' H'.
  destruct (files w' page_mapping_file) as [f|] eqn:E; [|contradiction].
  destruct (run_opened w' s' virt_addr' f E) as (r & pos & mid & -> & Hmid).
  unfold events_since. cbn [snd trace]. rewrite skipn_length_app.
  intros [C|C]; [discriminate C|].
  apply in_app_or in C. destruct C as [C|[C|[]]]; [|discriminate C].
  exact (inner_not_cannot_open mid Hmid C).
Qed.

Lemma open_failure_returns_zero_witness :
  virtual_to_physical_address 0x456789 no_pagemap_world initial_state =
    (0, {| open_streams := 0;
           position := 0;
           trace := [Fopen page_mapping_file false; cannot_open_message] |}).
Proof.
  refine (proj1 (open_failure_returns_zero no_pagemap_world initial_state
                   0x456789 _)).
  reflexivity.
Defined.

(** C6, as the claim states it: the value returned at the end of the data
    would be told apart from the one returned for a page that is not
    resident.  A file with no data and a file whose record is eight zero
    bytes both make the call return 0. *)
Lemma end_of_data_value_not_distinct :
  pending (one_record 0 []) (seek_offset empty_pagemap_world 0) 8 = None
  /\ fetched zero_record_world 0 = Some zero_record
  /\ page_present (assembled false zero_record) = false
  /\ fst (virtual_to_physical_address 0 empty_pagemap_world initial_state)
     = fst (virtual_to_physical_address 0 zero_record_world initial_state).
Proof. vm_compute. repeat split. Qed.

(** C6, amended.  With the file open and the seek done, the call reads the
    record with eight [getc] when the data goes that far, and no more.  When
    [getc] meets the end of the data before that, the call closes the stream
    and returns 0 without a message.  A record of eight zero bytes returns
    the same 0; only its "Page not present" message sets it apart. *)
Theorem short_read_returns_zero
  (w : world) (s : state) (virt_addr : Z) (f : stream) :
  files w page_mapping_file = Some f ->
  fseek_status f (seek_offset w virt_addr) = 0 ->
  (forall raw,
      pending f (seek_offset w virt_addr) 8 = Some raw ->
      List.length raw = 8%nat
      /\ position (snd (virtual_to_physical_address virt_addr w s))
         = seek_offset w virt_addr + 8
      /\ exists tail,
           trace (snd (virtual_to_physical_address virt_addr w s)) =
             trace s ++
             [Fopen page_mapping_file true; Fseek (seek_offset w virt_addr) 0]
             ++ map getc_event raw ++ tail
           /\ (tail = [Fclose] \/ tail = [not_present_message; Fclose]))
  /\ (pending f (seek_offset w virt_addr) 8 = None ->
      exists got,
        (List.length got < 8)%nat /\
        virtual_to_physical_address virt_addr w s =
          (0, {| open_streams := open_streams s;
                 position :=
                   seek_offset w virt_addr + Z.of_nat (List.length got);
                 trace := trace s ++
                   [Fopen page_mapping_file true;
                    Fseek (seek_offset w virt_addr) 0]
                   ++ map getc_event got ++ [Getc EOF; Fclose] |}))
  /\ (pending f (seek_offset w virt_addr) 8 = Some zero_record ->
      virtual_to_physical_address virt_addr w s =
        (0, {| open_streams := open_streams s;
               position := seek_offset w virt_addr + 8;
               trace := trace s ++
                 [Fopen page_mapping_file true;
                  Fseek (seek_offset w virt_addr) 0]
                 ++ map getc_event zero_record
                 ++ [not_present_message; Fclose] |})).
Proof.
  intros H Hs.
  assert (Hfetch : forall raw,
             pending f (seek_offset w virt_addr) 8 = Some raw ->
             fetched w virt_addr = Some raw).
  { intros raw Hp. unfold fetched. rewrite H, Hs. exact Hp. }
  split; [|split].
  - intros raw Hp. split; [exact (pending_length _ _ _ _ Hp)|].
    rewrite (run_whole w s virt_addr raw (Hfetch raw Hp)). cbv zeta.
    cbn [snd position trace]. split; [reflexivity|].
    destruct (page_present (assembled (big_endian_host w) raw));
      eexists; split; try reflexivity; auto.
  - exact (run_short w s virt_addr f H Hs).
  - intros Hp. rewrite (run_whole w s virt_addr _ (Hfetch _ Hp)). cbv zeta.
    replace (assembled (big_endian_host w) zero_record) with 0
      by (destruct (big_endian_host w); vm_compute; reflexivity).
    reflexivity.
Qed.

Lemma short_read_returns_zero_witness :
  exists got,
    (List.length got < 8)%nat /\
    virtual_to_physical_address 0 empty_pagemap_world initial_state =
      (0, {| open_streams := 0;
             position := 0 + Z.of_nat (List.length got);
             trace := [Fopen page_mapping_file true; Fseek 0 0]
                      ++ map getc_event got ++ [Getc EOF; Fclose] |}).
Proof.
  refine (proj1 (proj2
    (short_read_returns_zero empty_pagemap_world initial_state 0
       (one_record 0 []) _ _)) _);
    reflexivity.
Defined.

(** ** The offset of a record *)

(** C7.  Once the file is open, the next thing a call does is to seek to
    the offset [virt_addr / page_size * 8], computed in 64-bit arithmetic
    from the page size the host reports to that call ([getpagesize()]); for
    a page size of 16 bytes or more the product is exact. *)
Theorem record_offset
  (w : world) (s : state) (virt_addr : Z) (f : stream) :
  files w page_mapping_file = Some f ->
  getpagesize w s = (page_size w, s)
  /\ seek_offset w virt_addr
     = to_long (wrap (virt_addr / wrap (page_size w) * PAGEMAP_ENTRY))
  /\ (exists rest,
        trace (snd (virtual_to_physical_address virt_addr w s)) =
          trace s ++
          Fopen page_mapping_file true
          :: Fseek (seek_offset w virt_addr)
                   (fseek_status f (seek_offset w virt_addr))
          :: rest)
  /\ (fseek_status f (seek_offset w virt_addr) = 0 ->
      exists n,
        position (snd (virtual_to_physical_address virt_addr w s))
        = seek_offset w virt_addr + Z.of_nat n
        /\ (n <= 8)%nat)
  /\ (0 <= virt_addr < 2 ^ 64 -> 16 <= page_size w < 2 ^ 63 ->
      file_offset_of virt_addr (page_size w) = virt_addr / page_size w * 8
      /\ seek_offset w virt_addr = virt_addr / page_size w * 8).
Proof.
  intros H.
  split; [reflexivity|]. split; [reflexivity|]. split; [|split].
  - ways w s virt_addr f H; cbn [snd trace app]; rewrite ?Hs;
      eexists; reflexivity.
  - intros Hs0. ways w s virt_addr f H; [| |contradiction].
    + exists 8%nat. split; [reflexivity|lia].
    + exists (List.length got). split; [reflexivity|lia].
  - intros Hva Hps.
    pose proof (quotient_times_8 virt_addr (page_size w) Hva (proj1 Hps)) as Hq.
    assert (Hoff : file_offset_of virt_addr (page_size w)
                   = virt_addr / page_size w * 8).
    { unfold file_offset_of. rewrite (wrap_small (page_size w)) by lia.
      apply wrap_small. unfold PAGEMAP_ENTRY. lia. }
    split; [exact Hoff|].
    unfold seek_offset, to_long. rewrite Hoff.
    destruct (Z.ltb_spec (virt_addr / page_size w * 8) (2 ^ 63)); lia.
Qed.

Lemma record_offset_witness :
  seek_offset frame_0x123_world 0x456789 = 0x456789 / 4096 * 8
  /\ seek_offset large_page_world 0x10000 = 0x10000 / 65536 * 8.
Proof.
  split.
  - refine (proj2 (proj2 (proj2 (proj2 (proj2
      (record_offset frame_0x123_world initial_state 0x456789
         (one_record (0x456 * 8) (value_bytes false 0x8000000000000123))
         _)))) _ _)); vm_compute; auto; split; congruence.
  - refine (proj2 (proj2 (proj2 (proj2 (proj2
      (record_offset large_page_world initial_state 0x10000
         (one_record 8 (value_bytes false 0x8000000000000123))
         _)))) _ _)); vm_compute; auto; split; congruence.
Defined.

(** ** The stream is closed *)

(** C8.  A call that opened the mapping file has closed it when it returns,
    whichever way it returns (a result, a failed seek, the end of the data):
    no more streams are open than before the call, and what the call did
    starts with the [fopen] and ends with the one [fclose]. *)
Theorem stream_released
  (w : world) (s : state) (virt_addr : Z) (f : stream) :
  files w page_mapping_file = Some f ->
  open_streams (snd (virtual_to_physical_address virt_addr w s))
  = open_streams s
  /\ exists mid,
       events_since s (snd (virtual_to_physical_address virt_addr w s))
       = Fopen page_mapping_file true :: mid ++ [Fclose]
       /\ ~ In Fclose mid
       /\ (forall path opened, ~ In (Fopen path opened) mid).
Proof.
  intros H.
  destruct (run_opened w s virt_addr f H) as (r & pos & mid & -> & Hmid).
  cbn [snd open_streams]. split; [reflexivity|].
  exists mid. unfold events_since. cbn [trace]. rewrite skipn_length_app.
  split; [reflexivity|]. split.
  - exact (inner_not_fclose mid Hmid).
  - intros path opened. exact (inner_not_fopen mid path opened Hmid).
Qed.

Lemma stream_released_witness :
  open_streams
    (snd (virtual_to_physical_address 0 unseekable_world initial_state)) = 0%nat
  /\ open_streams
       (snd (virtual_to_physical_address 0 empty_pagemap_world initial_state))
     = 0%nat
  /\ open_streams
       (snd (virtual_to_physical_address 0x456789 frame_0x123_world
               initial_state)) = 0%nat.
Proof.
  split; [|split].
  - refine (proj1 (stream_released unseekable_world initial_state 0 _ _)).
    reflexivity.
  - refine (proj1 (stream_released empty_pagemap_world initial_state 0 _ _)).
    reflexivity.
  - refine (proj1 (stream_released frame_0x123_world initial_state 0x456789
                     _ _)).
    reflexivity.
Defined.

(** ** The driver *)

(** C9, as the claim states it: the driver would end normally, with exit
    code 0, when the input ends.  On an input that ends, at once or after an
    address, [scanf] returns [EOF], [assert(ret == 1)] fails and the process
    is aborted. *)
Lemma end_of_input_aborts :
  main "./check_mapping" "" 0x456789 [] frame_0x123_world initial_state
  = (Aborted,
     {| open_streams := 0;
        position := 0x456 * 8 + 8;
        trace :=
          [Printf ("Command line arguments :%s %s" ++ LF)%string
                  [AStr "./check_mapping"; AStr ""];
           Fopen page_mapping_file true; Fseek (0x456 * 8) 0;
           Getc 0x23; Getc 0x01; Getc 0; Getc 0;
           Getc 0; Getc 0; Getc 0; Getc 0x80; Fclose;
           Printf ("stack is around here vaddr:%p paddr:%lx" ++ LF)%string
                  [ANum 0x456789; ANum 0x123789];
           Printf "addr:" []; Scanf "%lx" EOF; AssertFail "ret == 1"] |})
  /\ fst (main "./check_mapping" "" 0x456789 [Hex 0x456000]
               frame_0x123_world initial_state)
     = Aborted.
Proof. vm_compute. split; reflexivity. Qed.

(** C9, amended.  The driver reads one address per turn with
    [scanf("%lx", ...)].  After numerals other than zero and then a zero it
    has read just these, and [main] returns 0; a numeral too large for
    [unsigned long] is read as [ULONG_MAX], not as a zero, and does not end
    the loop.  When instead the input ends, or holds text that is no
    hexadecimal numeral, the [scanf] of that turn does not return 1,
    [assert(ret == 1)] fails, and the process is aborted rather than ended
    with code 0. *)
Theorem driver_exit
  (w : world) (s : state) (argv0 argv1 : string) (addr_ptr : Z)
  (vs : list Z) :
  Forall (fun v => v <> 0) vs ->
  (forall rest,
      let r := main argv0 argv1 addr_ptr (map Hex vs ++ Hex 0 :: rest) w s in
      fst r = Returned 0
      /\ scanf_calls (trace (snd r))
         = (scanf_calls (trace s) + List.length vs + 1)%nat)
  /\ (let r := main argv0 argv1 addr_ptr (map Hex vs) w s in
      fst r = Aborted
      /\ exists t, trace (snd r) = t ++ failed_read EOF)
  /\ (forall rest,
        let r := main argv0 argv1 addr_ptr (map Hex vs ++ NoMatch :: rest) w s in
        fst r = Aborted
        /\ exists t, trace (snd r) = t ++ failed_read 0).
Proof.
  intros Hvs. split; [|split].
  - intros rest r. subst r.
    destruct (main_prelude argv0 argv1 addr_ptr
                (map Hex vs ++ Hex 0 :: rest) w s) as (s0 & N0 & ->).
    destruct (main_loop_run w (Hex 0 :: rest) vs Hvs 1 s0 ltac:(lia))
      as (addr' & s' & Ha & Hc & ->).
    rewrite (main_loop_read 0 rest addr' w s' Ha). cbv zeta.
    change (strtoul_value 0) with 0.
    step_call w.
    rewrite main_loop_stop by lia. cbn [fst snd trace].
    split; [reflexivity|].
    rewrite scanf_calls_app, N, scanf_calls_app, Hc, N0. cbn. lia.
  - intros r. subst r.
    destruct (main_prelude argv0 argv1 addr_ptr (map Hex vs) w s)
      as (s0 & _ & ->).
    rewrite <- (app_nil_r (map Hex vs)).
    destruct (main_loop_run w [] vs Hvs 1 s0 ltac:(lia))
      as (addr' & s' & Ha & _ & ->).
    rewrite (main_loop_failed [] addr' w s' Ha) by (left; reflexivity).
    cbn [fst snd trace scanf_lx]. split; [reflexivity|].
    eexists. reflexivity.
  - intros rest r. subst r.
    destruct (main_prelude argv0 argv1 addr_ptr
                (map Hex vs ++ NoMatch :: rest) w s) as (s0 & _ & ->).
    destruct (main_loop_run w (NoMatch :: rest) vs Hvs 1 s0 ltac:(lia))
      as (addr' & s' & Ha & _ & ->).
    rewrite (main_loop_failed (NoMatch :: rest) addr' w s' Ha)
      by (right; eexists; reflexivity).
    cbn [fst snd trace scanf_lx]. split; [reflexivity|].
    eexists. reflexivity.
Qed.

Lemma driver_exit_witness :
  (fst (main "./check_mapping" "" 0x456789 [Hex 0x456000; Hex 0; Hex 5]
             frame_0x123_world initial_state)
   = Returned 0
   /\ scanf_calls
        (trace (snd (main "./check_mapping" "" 0x456789
                          [Hex 0x456000; Hex 0; Hex 5]
                          frame_0x123_world initial_state)))
      = 2%nat)
  /\ fst (main "./check_mapping" "" 0x456789 [Hex 0x10000000000000000]
               frame_0x123_world initial_state)
     = Aborted.
Proof.
  split.
  - refine (proj1 (driver_exit frame_0x123_world initial_state
                     "./check_mapping" "" 0x456789 [0x456000] _) [Hex 5]).
    constructor; [discriminate|constructor].
  - refine (proj1 (proj1 (proj2 (driver_exit frame_0x123_world initial_state
                     "./check_mapping" "" 0x456789 [0x10000000000000000] _)))).
    constructor; [discriminate|constructor].
Defined.


(** ** What the call returns for a page that is not present *)

(** C10.  When bit 63 of the assembled value is clear, the call returns
    that value as it was assembled from the record: 0 only for eight zero
    bytes, and otherwise a number that a present page can resolve to as
    well, so that the returned number alone does not tell the two apart. *)
Theorem not_resident_returns_raw
  (w : world) (s : state) (virt_addr : Z) (raw : list byte) :
  fetched w virt_addr = Some raw ->
  Z.testbit (assembled (big_endian_host w) raw) 63 = false ->
  let returned := fst (virtual_to_physical_address virt_addr w s) in
  returned = assembled (big_endian_host w) raw
  /\ returned = le_combine (if big_endian_host w then rev raw else raw)
  /\ (returned = 0 <-> raw = zero_record)
  /\ exists w' virt_addr' raw',
       fetched w' virt_addr' = Some raw'
       /\ Z.testbit (assembled (big_endian_host w') raw') 63 = true
       /\ fst (virtual_to_physical_address virt_addr' w' s) = returned.
Proof.
  intros Hf Hbit returned.
  pose proof (fetched_length _ _ _ Hf) as Hlen.
  assert (E : returned = assembled (big_endian_host w) raw).
  { subst returned. rewrite (run_whole w s virt_addr raw Hf). cbv zeta.
    rewrite page_present_bit, Hbit. reflexivity. }
  split; [exact E|]. split; [rewrite E; apply assembled_value, Hlen|].
  split.
  - rewrite E, (assembled_value _ _ Hlen). split.
    + intros H0.
      assert (R : (if big_endian_host w then rev raw else raw) = zero_record).
      { apply le_combine_inj; [|rewrite H0; reflexivity].
        destruct (big_endian_host w); rewrite ?length_rev; exact Hlen. }
      destruct (big_endian_host w); [|exact R].
      rewrite <- (rev_involutive raw), R. reflexivity.
    + intros ->. destruct (big_endian_host w); reflexivity.
  - assert (Hr : 0 <= returned < 2 ^ 63).
    { rewrite E. pose proof (assembled_range (big_endian_host w) raw) as B.
      split; [lia|]. apply testbit_63_range; assumption. }
    destruct (twin_resolves returned s Hr) as (F & B & R).
    exists (twin_world returned), (returned mod 4096),
      (value_bytes false (2 ^ 63 + returned / 4096)).
    split; [exact F|]. split; [exact B|exact R].
Qed.

Lemma not_resident_returns_raw_witness :
  fst (virtual_to_physical_address 0x456789 swapped_world initial_state)
  = 0x4000000000000123.
Proof.
  refine (proj1 (not_resident_returns_raw swapped_world initial_state 0x456789
                   (value_bytes false 0x4000000000000123) _ _));
    vm_compute; reflexivity.
Defined.

(** * Further properties of [check_mapping.c] *)

(** ** A call, whatever state it starts in *)

Lemma read_entry_short_taken (f : stream) (w : world) (n : nat) :
  forall i c_buf s,
    pending f (position s) n = None ->
    read_entry f n i c_buf w s =
      (None,
       {| open_streams := pred (open_streams s);
          position :=
            position s + Z.of_nat (List.length (taken f (position s) n));
          trace := trace s ++ map getc_event (taken f (position s) n)
                           ++ [Getc EOF; Fclose] |}).
Proof.
  induction n as [|n IH]; intros i c_buf s H; simpl in H; [discriminate|].
  cbn [read_entry taken]. unfold bind at 1. unfold getc at 1.
  destruct (byte_at f (position s)) as [b|] eqn:Eb.
  - destruct (pending f (position s + 1) n) as [bs|] eqn:Ebs; [discriminate|].
    rewrite unsigned_not_EOF. unfold bind at 1. rewrite is_bigendian_host.
    rewrite IH by exact Ebs.
    cbn [open_streams position trace map List.length].
    do 2 f_equal; [lia|].
    now rewrite <- app_assoc.
  - change (EOF =? EOF) with true. cbv beta iota.
    unfold bind, fclose, ret. cbn [open_streams position trace map List.length].
    do 2 f_equal; [simpl; lia|].
    now rewrite <- app_assoc.
Qed.

Lemma run_short_taken (w : world) (s : state) (virt_addr : Z) (f : stream) :
  files w page_mapping_file = Some f ->
  fseek_status f (seek_offset w virt_addr) = 0 ->
  pending f (seek_offset w virt_addr) 8 = None ->
  virtual_to_physical_address virt_addr w s =
    (0, {| open_streams := open_streams s;
           position :=
             seek_offset w virt_addr
             + Z.of_nat (List.length (taken f (seek_offset w virt_addr) 8));
           trace := trace s ++
             [Fopen page_mapping_file true; Fseek (seek_offset w virt_addr) 0]
             ++ map getc_event (taken f (seek_offset w virt_addr) 8)
             ++ [Getc EOF; Fclose] |}).
Proof.
  intros H Hs Hp.
  unfold virtual_to_physical_address, bind, fopen. rewrite H.
  unfold getpagesize, fseek. fold (seek_offset w virt_addr). rewrite Hs.
  cbn [negb Z.eqb open_streams position trace].
  change (Z.to_nat PAGEMAP_ENTRY) with 8%nat.
  rewrite read_entry_short_taken by exact Hp.
  unfold ret. cbn [open_streams position trace pred].
  now rewrite <- !app_assoc.
Qed.

Lemma reports_app (t t' : list event) :
  reports (t ++ t') = reports t ++ reports t'.
Proof.
  induction t as [|e t IH]; [reflexivity|].
  cbn [app reports]. destruct (report_of e); rewrite IH; reflexivity.
Qed.

Lemma reports_getc (got : list byte) : reports (map getc_event got) = [].
Proof. induction got; simpl; auto. Qed.

Lemma scanf_calls_getc (got : list byte) :
  scanf_calls (map getc_event got) = 0%nat.
Proof. induction got; simpl; auto. Qed.

(** What a call for [virt_addr] returns and does is fixed by the world: the
    state it starts in only comes first in the trace. *)
Lemma call_frame (w : world) (virt_addr : Z) :
  exists ev,
    reports ev = [] /\ scanf_calls ev = 0%nat
    /\ forall s, exists pos,
         virtual_to_physical_address virt_addr w s =
           (resolve w virt_addr,
            {| open_streams := open_streams s;
               position := pos;
               trace := trace s ++ ev |}).
Proof.
  enough (exists r ev,
             reports ev = [] /\ scanf_calls ev = 0%nat
             /\ forall s, exists pos,
                  virtual_to_physical_address virt_addr w s =
                    (r, {| open_streams := open_streams s;
                           position := pos;
                           trace := trace s ++ ev |})) as (r & ev & R & C & Hrun).
  { exists ev. split; [exact R|]. split; [exact C|]. intros s.
    destruct (Hrun s) as (pos & E). exists pos. rewrite E. unfold resolve.
    destruct (Hrun initial_state) as (pos0 & ->). reflexivity. }
  destruct (files w page_mapping_file) as [f|] eqn:H.
  - destruct (Z.eq_dec (fseek_status f (seek_offset w virt_addr)) 0) as [Hs|Hs].
    + destruct (pending f (seek_offset w virt_addr) 8) as [raw|] eqn:Hp.
      * assert (Hf : fetched w virt_addr = Some raw)
          by (unfold fetched; rewrite H, Hs; exact Hp).
        do 2 eexists. split; [|split];
          [| |intros s; eexists; apply (run_whole w s virt_addr raw Hf)].
        -- rewrite !reports_app, reports_getc.
           generalize (page_present (assembled (big_endian_host w) raw)).
           intros [|]; reflexivity.
        -- rewrite !scanf_calls_app, scanf_calls_getc.
           generalize (page_present (assembled (big_endian_host w) raw)).
           intros [|]; reflexivity.
      * do 2 eexists. split; [|split];
          [| |intros s; eexists; apply (run_short_taken w s virt_addr f H Hs Hp)].
        -- rewrite !reports_app, reports_getc. reflexivity.
        -- rewrite !scanf_calls_app, scanf_calls_getc. reflexivity.
    + do 2 eexists. split; [|split];
        [| |intros s; eexists; apply (run_cannot_seek w s virt_addr f H Hs)];
        reflexivity.
  - do 2 eexists. split; [|split];
      [| |intros s; eexists; apply (run_cannot_open w s virt_addr H)];
      reflexivity.
Qed.

(** Closes a closed goal of equalities and comparisons by evaluation. *)
Ltac by_evaluation :=
  vm_compute; repeat split; solve [reflexivity | discriminate].

Lemma seek_offset_exact (w : world) (virt_addr : Z) :
  0 <= virt_addr < 2 ^ 64 -> 16 <= page_size w < 2 ^ 63 ->
  seek_offset w virt_addr = virt_addr / page_size w * 8.
Proof.
  intros Hva Hps.
  pose proof (quotient_times_8 virt_addr (page_size w) Hva (proj1 Hps)) as Hq.
  unfold seek_offset, to_long, file_offset_of.
  rewrite (wrap_small (page_size w)) by lia.
  rewrite wrap_small by (unfold PAGEMAP_ENTRY; lia). unfold PAGEMAP_ENTRY.
  destruct (Z.ltb_spec (virt_addr / page_size w * 8) (2 ^ 63)); lia.
Qed.

(** X1.  When [fseek] fails, the call prints "Error! Cannot seek in
    /proc/self/pagemap.", has [perror] report "Failed to do fseek!", closes
    the stream and returns 0; it reads no byte, whatever the file holds. *)
Theorem seek_failure_returns_zero
  (w : world) (s : state) (virt_addr : Z) (f : stream) :
  files w page_mapping_file = Some f ->
  fseek_status f (seek_offset w virt_addr) <> 0 ->
  fst (virtual_to_physical_address virt_addr w s) = 0
  /\ events_since s (snd (virtual_to_physical_address virt_addr w s)) =
       [Fopen page_mapping_file true;
        Fseek (seek_offset w virt_addr)
              (fseek_status f (seek_offset w virt_addr));
        Printf ("Error! Cannot seek in %s." ++ LF)%string
               [AStr "/proc/self/pagemap"];
        Perror "Failed to do fseek!"; Fclose]
  /\ open_streams (snd (virtual_to_physical_address virt_addr w s))
     = open_streams s.
Proof.
  intros H Hs. rewrite (run_cannot_seek w s virt_addr f H Hs).
  unfold events_since. cbn [fst snd trace open_streams].
  rewrite skipn_length_app. repeat split.
Qed.

Lemma seek_failure_returns_zero_witness :
  fst (virtual_to_physical_address 0x456789 unseekable_world initial_state) = 0.
Proof.
  refine (proj1 (seek_failure_returns_zero unseekable_world initial_state
                   0x456789 _ _ _)); [reflexivity|vm_compute; discriminate].
Defined.

(** X3.  On a host whose page size is a power of two [2 ^ k], the value
    returned for a present page keeps the offset of the address within its
    page, and its quotient by the page size is the frame number of the record
    reduced to [64 - k] bits: the frame number itself when that fits. *)
Theorem resident_offset_and_frame
  (w : world) (s : state) (virt_addr : Z) (raw : list byte) (k : Z) :
  0 <= k <= 62 ->
  page_size w = 2 ^ k ->
  fetched w virt_addr = Some raw ->
  Z.testbit (assembled (big_endian_host w) raw) 63 = true ->
  let page_frame_number := assembled (big_endian_host w) raw mod 2 ^ 55 in
  let physical_address := fst (virtual_to_physical_address virt_addr w s) in
  physical_address mod 2 ^ k = virt_addr mod 2 ^ k
  /\ physical_address / 2 ^ k = page_frame_number mod 2 ^ (64 - k)
  /\ (page_frame_number < 2 ^ (64 - k) ->
      physical_address = page_frame_number * 2 ^ k + virt_addr mod 2 ^ k).
Proof.
  intros Hk Hps Hf Hbit page_frame_number physical_address.
  assert (Hpow : 0 < 2 ^ k) by (apply Z.pow_pos_nonneg; lia).
  assert (Hlt : 2 ^ k < 2 ^ 63) by (apply Z.pow_lt_mono_r; lia).
  assert (Hm : 0 <= virt_addr mod 2 ^ k < 2 ^ k)
    by (apply Z.mod_pos_bound; lia).
  assert (E : physical_address =
              page_frame_number mod 2 ^ (64 - k) * 2 ^ k
              + virt_addr mod 2 ^ k).
  { subst physical_address page_frame_number.
    rewrite (run_whole w s virt_addr raw Hf). cbv zeta.
    rewrite page_present_bit, Hbit, pfn_mask_low_bits, Hps. cbn [fst].
    rewrite (wrap_small (2 ^ k)), (wrap_small (2 ^ k - 1)) by lia.
    replace (2 ^ k - 1) with (Z.ones k)
      by (rewrite Z.ones_equiv; lia).
    rewrite Z.land_ones by lia.
    unfold wrap. replace (2 ^ 64) with (2 ^ (64 - k) * 2 ^ k)
      by (rewrite <- Z.pow_add_r by lia; f_equal; lia).
    rewrite Z.mul_mod_distr_r by lia.
    apply lor_low_bits; [lia|exact Hm]. }
  split; [|split].
  - rewrite E, Z.add_comm, Z_mod_plus_full. apply Z.mod_mod. lia.
  - rewrite E, Z_div_plus_full_l, Z.div_small by lia. lia.
  - intros Hfit. rewrite E, (Z.mod_small page_frame_number); [reflexivity|].
    split; [|exact Hfit]. subst page_frame_number.
    apply Z.mod_pos_bound. lia.
Qed.

Lemma resident_offset_and_frame_witness :
  fst (virtual_to_physical_address 0x456789 frame_0x123_world initial_state)
    mod 2 ^ 12 = 0x456789 mod 2 ^ 12
  /\ fst (virtual_to_physical_address 0x456789 frame_0x123_world initial_state)
       / 2 ^ 12 = 0x123.
Proof.
  refine ((fun H => conj (proj1 H) (proj1 (proj2 H)))
    (resident_offset_and_frame frame_0x123_world initial_state 0x456789
       (value_bytes false 0x8000000000000123) 12 _ _ _ _));
    by_evaluation.
Defined.

(** X4.  For a present page only bit 63 and bits 0 to 54 of the record
    count: two records with the same low 55 bits resolve an address to the
    same value, whatever their bits 55 to 62. *)
Theorem flag_bits_ignored
  (w w' : world) (s s' : state) (virt_addr : Z) (raw raw' : list byte) :
  page_size w = page_size w' ->
  fetched w virt_addr = Some raw ->
  fetched w' virt_addr = Some raw' ->
  Z.testbit (assembled (big_endian_host w) raw) 63 = true ->
  Z.testbit (assembled (big_endian_host w') raw') 63 = true ->
  assembled (big_endian_host w) raw mod 2 ^ 55
  = assembled (big_endian_host w') raw' mod 2 ^ 55 ->
  fst (virtual_to_physical_address virt_addr w s)
  = fst (virtual_to_physical_address virt_addr w' s').
Proof.
  intros Hps Hf Hf' Hb Hb' Hlow.
  rewrite (run_whole w s virt_addr raw Hf),
    (run_whole w' s' virt_addr raw' Hf'). cbv zeta. cbn [fst].
  rewrite !page_present_bit, Hb, Hb', !pfn_mask_low_bits, Hlow, Hps.
  reflexivity.
Qed.

Lemma flag_bits_ignored_witness :
  fst (virtual_to_physical_address 0x456789 frame_0x123_world initial_state)
  = fst (virtual_to_physical_address 0x456789 flagged_world initial_state).
Proof.
  refine (flag_bits_ignored frame_0x123_world flagged_world
            initial_state initial_state 0x456789
            (value_bytes false 0x8000000000000123)
            (value_bytes false 0xA180000000000123) _ _ _ _ _ _);
    vm_compute; reflexivity.
Defined.

(** X5.  For a page size of 16 bytes or more the records are laid out one
    per page, eight bytes each: the offset sought is a multiple of 8 below
    [2 ^ 63], two addresses of the same page seek, and read, the same
    record, and the record of the next page is the next one in the file. *)
Theorem record_layout (w : world) (virt_addr : Z) :
  16 <= page_size w < 2 ^ 63 ->
  0 <= virt_addr < 2 ^ 64 ->
  0 <= seek_offset w virt_addr < 2 ^ 63
  /\ seek_offset w virt_addr mod 8 = 0
  /\ (forall virt_addr',
        0 <= virt_addr' < 2 ^ 64 ->
        virt_addr' / page_size w = virt_addr / page_size w ->
        seek_offset w virt_addr' = seek_offset w virt_addr
        /\ fetched w virt_addr' = fetched w virt_addr)
  /\ (virt_addr + page_size w < 2 ^ 64 ->
      seek_offset w (virt_addr + page_size w) = seek_offset w virt_addr + 8).
Proof.
  intros Hps Hva.
  pose proof (quotient_times_8 virt_addr (page_size w) Hva (proj1 Hps)) as Hq.
  rewrite (seek_offset_exact w virt_addr Hva Hps).
  split; [exact Hq|]. split; [apply Z_mod_mult|]. split.
  - intros virt_addr' Hva' Hsame.
    assert (E : seek_offset w virt_addr' = seek_offset w virt_addr)
      by (rewrite !seek_offset_exact, Hsame by assumption; reflexivity).
    rewrite <- (seek_offset_exact w virt_addr Hva Hps).
    split; [exact E|]. unfold fetched. rewrite E. reflexivity.
  - intros Hnext. rewrite seek_offset_exact by lia.
    replace (virt_addr + page_size w) with (virt_addr + 1 * page_size w) by lia.
    rewrite Z_div_plus_full by lia. lia.
Qed.

Lemma record_layout_witness :
  seek_offset frame_0x123_world 0x456000 = seek_offset frame_0x123_world 0x456789
  /\ seek_offset frame_0x123_world (0x456789 + 4096)
     = seek_offset frame_0x123_world 0x456789 + 8.
Proof.
  refine ((fun H =>
             conj (proj1 (proj1 (proj2 (proj2 H)) 0x456000 _ _))
                  (proj2 (proj2 (proj2 H)) _))
    (record_layout frame_0x123_world 0x456789 _ _));
    by_evaluation.
Defined.

(** X6.  What a call returns and what it does depend on the world and the
    address only, not on the state earlier calls left (the position of the
    stream, the trace): so two calls in a row for one address return the
    same value. *)
Theorem call_independent_of_state (w : world) (s s' : state) (virt_addr : Z) :
  fst (virtual_to_physical_address virt_addr w s)
  = fst (virtual_to_physical_address virt_addr w s')
  /\ events_since s (snd (virtual_to_physical_address virt_addr w s))
     = events_since s' (snd (virtual_to_physical_address virt_addr w s'))
  /\ (let twice :=
        (a <- virtual_to_physical_address virt_addr ;;
         b <- virtual_to_physical_address virt_addr ;;
         ret (a, b)) w s in
      fst (fst twice) = snd (fst twice)).
Proof.
  destruct (call_frame w virt_addr) as (ev & _ & _ & Hrun).
  split; [|split].
  - destruct (Hrun s) as (pos & ->), (Hrun s') as (pos' & ->). reflexivity.
  - destruct (Hrun s) as (pos & ->), (Hrun s') as (pos' & ->).
    unfold events_since. cbn [snd trace]. now rewrite !skipn_length_app.
  - intros twice.
    assert (E : exists st,
               twice = ((resolve w virt_addr, resolve w virt_addr), st)).
    { subst twice. unfold bind. destruct (Hrun s) as (pos & ->).
      match goal with |- context [virtual_to_physical_address _ w ?s1] =>
        destruct (Hrun s1) as (pos1 & ->)
      end.
      eexists. reflexivity. }
    destruct E as (st & ->). reflexivity.
Qed.

(** X7.  The first loop writes every cell of [c_buf] when it reads a whole
    record: whatever the array, which the source does not initialise, held
    before, the loop leaves the eight bytes read, in the order read on a
    big-endian host and in reverse on a little-endian one. *)
Theorem c_buf_overwritten
  (f : stream) (w : world) (s : state) (raw : list byte)
  (c_buf c_buf' : list Z) :
  List.length c_buf = 8%nat ->
  List.length c_buf' = 8%nat ->
  pending f (position s) 8 = Some raw ->
  read_entry f 8 0 c_buf w s = read_entry f 8 0 c_buf' w s
  /\ fst (read_entry f 8 0 c_buf w s)
     = Some (if big_endian_host w then map byte.unsigned raw
             else rev (map byte.unsigned raw)).
Proof.
  intros Hb Hb' Hp.
  pose proof (pending_length _ _ _ _ Hp) as Hlen.
  rewrite !(read_entry_filled f w 8 _ _ _ raw Hp).
  rewrite (fill_whole _ raw c_buf Hlen Hb), (fill_whole _ raw c_buf' Hlen Hb').
  split; reflexivity.
Qed.

Lemma c_buf_overwritten_witness :
  fst (read_entry (one_record 0 (value_bytes false 0x8000000000000123))
         8 0 (repeat 0xAA 8) frame_0x123_world initial_state)
  = Some [0x80; 0; 0; 0; 0; 0; 0x01; 0x23].
Proof.
  refine (proj2 (c_buf_overwritten
                   (one_record 0 (value_bytes false 0x8000000000000123))
                   frame_0x123_world initial_state
                   (value_bytes false 0x8000000000000123)
                   (repeat 0xAA 8) c_buf_init _ _ _));
    reflexivity.
Defined.

(** X8.  The two loops lose nothing of a record.  On a stream that holds
    the eight bytes [raw], laying out the value they make of it, in the byte
    order of the host, gives back [raw], so that two different records never
    give the same value; and when the call reports the page as not present,
    the number it returns, laid out in this way, is the record it read. *)
Theorem record_bytes_round_trip
  (f : stream) (w : world) (s : state) (raw : list byte) (c_buf : list Z) :
  List.length c_buf = 8%nat ->
  pending f (position s) 8 = Some raw ->
  let read_val (filled : option (list Z)) :=
    option_map (fun c_buf => assemble 8 0 c_buf 0) filled in
  option_map (value_bytes (big_endian_host w))
             (read_val (fst (read_entry f 8 0 c_buf w s)))
  = Some raw
  /\ (forall f' s' raw' c_buf',
        List.length c_buf' = 8%nat ->
        pending f' (position s') 8 = Some raw' ->
        read_val (fst (read_entry f' 8 0 c_buf' w s'))
        = read_val (fst (read_entry f 8 0 c_buf w s)) ->
        raw' = raw)
  /\ (forall s0 virt_addr,
        fetched w virt_addr = Some raw ->
        In not_present_message
           (events_since s0
              (snd (virtual_to_physical_address virt_addr w s0))) ->
        value_bytes (big_endian_host w)
                    (fst (virtual_to_physical_address virt_addr w s0))
        = raw).
Proof.
  intros Hb Hp read_val. subst read_val. cbv beta.
  pose proof (pending_length _ _ _ _ Hp) as Hlen.
  pose proof (value_bytes_assembled (big_endian_host w) raw Hlen) as R.
  rewrite (read_entry_assemble f w s raw c_buf Hb Hp).
  split; [|split].
  - cbn [option_map]. rewrite R. reflexivity.
  - intros f' s' raw' c_buf' Hb' Hp' E.
    rewrite (read_entry_assemble f' w s' raw' c_buf' Hb' Hp') in E.
    pose proof (pending_length _ _ _ _ Hp') as Hlen'.
    rewrite <- (value_bytes_assembled (big_endian_host w) raw' Hlen').
    injection E as ->. exact R.
  - intros s0 virt_addr Hf Hin.
    rewrite (run_whole_not_present w s0 virt_addr raw Hf Hin). exact R.
Qed.

Lemma record_bytes_round_trip_witness :
  option_map (value_bytes true)
    (option_map (fun c_buf => assemble 8 0 c_buf 0)
       (fst (read_entry (one_record 0 (value_bytes true 0x8000000000000123))
               8 0 (repeat 0xAA 8) frame_0x123_big_world initial_state)))
  = Some [Byte.x80; Byte.x00; Byte.x00; Byte.x00;
          Byte.x00; Byte.x00; Byte.x01; Byte.x23].
Proof.
  refine (proj1 (record_bytes_round_trip
                   (one_record 0 (value_bytes true 0x8000000000000123))
                   frame_0x123_big_world initial_state
                   (value_bytes true 0x8000000000000123)
                   (repeat 0xAA 8) _ _));
    reflexivity.
Defined.

(** X9.  The macro [GET_BIT(X,Y)] yields bit [Y] of [X] as 0 or 1, and for
    bit 63 it is 1 exactly when the test of line 85 takes the page as
    present; the macro [GET_PFN(X)] yields the low 55 bits of [X]. *)
Theorem get_bit_macro (X Y : Z) :
  0 <= Y < 64 ->
  GET_BIT X Y = (if Z.testbit X Y then 1 else 0)
  /\ (GET_BIT X 63 =? 1) = page_present X
  /\ GET_PFN X = X mod 2 ^ 55.
Proof.
  intros HY.
  assert (B : forall n, 0 <= n ->
                        GET_BIT X n = if Z.testbit X n then 1 else 0).
  { intros n Hn. unfold GET_BIT. rewrite Z.shiftl_1_l.
    apply Z.bits_inj'. intros i Hi.
    rewrite Z.shiftr_spec, Z.land_spec, Z.pow2_bits_eqb by lia.
    destruct (Z.eqb_spec n (i + n)) as [E|E].
    - assert (i = 0) by lia. subst i. cbn [Z.add].
      rewrite andb_true_r. destruct (Z.testbit X n); reflexivity.
    - rewrite andb_false_r.
      destruct (Z.testbit X n);
        [rewrite Z.bits_above_log2|rewrite Z.bits_0]; try reflexivity;
        cbn; lia. }
  split; [exact (B Y (proj1 HY))|]. split.
  - rewrite (B 63), page_present_bit by lia.
    destruct (Z.testbit X 63); reflexivity.
  - unfold GET_PFN. change 0x7FFFFFFFFFFFFF with (Z.ones 55).
    apply Z.land_ones. lia.
Qed.

Lemma get_bit_macro_witness :
  GET_BIT 0x8000000000000123 63 = 1 /\ GET_BIT 0x8000000000000123 62 = 0.
Proof.
  split.
  - refine (proj1 (get_bit_macro 0x8000000000000123 63 _)). by_evaluation.
  - refine (proj1 (get_bit_macro 0x8000000000000123 62 _)). by_evaluation.
Defined.

(** ** The driver, line by line *)

(** One turn of the loop that reads the numeral [v]. *)
Lemma main_loop_turn (w : world) (v : Z) (rest : list scan_item) (addr : Z)
  (s : state) :
  0 < addr ->
  exists s',
    main_loop (Hex v :: rest) addr w s = main_loop rest (strtoul_value v) w s'
    /\ open_streams s' = open_streams s
    /\ exists ev,
         trace s' = trace s ++ ev
         /\ reports ev = [(strtoul_value v, resolve w (strtoul_value v))].
Proof.
  intros Haddr. rewrite (main_loop_read v rest addr w s Haddr). cbv zeta.
  destruct (call_frame w (strtoul_value v)) as (ev & R & _ & Hrun).
  match goal with |- context [virtual_to_physical_address _ w ?s1] =>
    destruct (Hrun s1) as (pos & ->)
  end.
  eexists. split; [reflexivity|]. split; [reflexivity|].
  cbn [trace]. eexists. split; [rewrite <- !app_assoc; reflexivity|].
  rewrite !reports_app, R. cbn [app reports report_of].
  rewrite String.eqb_refl. reflexivity.
Qed.

(** The loop on a run of non-zero addresses followed by [tail]: what it
    shows before it comes to [tail]. *)
Lemma main_loop_shows (w : world) (tail : list scan_item) (vs : list Z) :
  Forall (fun v => v <> 0) vs ->
  forall addr s,
    0 < addr ->
    exists addr' s' ev,
      0 < addr'
      /\ main_loop (map Hex vs ++ tail) addr w s = main_loop tail addr' w s'
      /\ open_streams s' = open_streams s
      /\ trace s' = trace s ++ ev
      /\ reports ev = map (fun v => (strtoul_value v, resolve w (strtoul_value v))) vs.
Proof.
  induction 1 as [|v vs Hv _ IH]; intros addr s Haddr.
  - exists addr, s, []. rewrite app_nil_r. repeat split. exact Haddr.
  - cbn [map app].
    destruct (main_loop_turn w v (map Hex vs ++ tail) addr s Haddr)
      as (s1 & -> & O1 & ev1 & T1 & R1).
    assert (Hpos : 0 < strtoul_value v).
    { pose proof (strtoul_value_range v). pose proof (strtoul_value_0 v). lia. }
    destruct (IH (strtoul_value v) s1 Hpos) as (addr' & s' & ev & Ha & -> & O & T & R).
    exists addr', s', (ev1 ++ ev). split; [exact Ha|]. split; [reflexivity|].
    split; [congruence|]. split; [rewrite T, T1, app_assoc; reflexivity|].
    rewrite reports_app, R1, R. reflexivity.
Qed.

(** [main] up to its loop: two lines shown, none of them a report. *)
Lemma main_start (argv0 argv1 : string) (addr_ptr : Z)
  (stdin : list scan_item) (w : world) (s : state) :
  exists s' ev,
    main argv0 argv1 addr_ptr stdin w s = main_loop stdin 1 w s'
    /\ open_streams s' = open_streams s
    /\ trace s' = trace s ++ ev
    /\ reports ev = [].
Proof.
  unfold main. cbv zeta. unfold bind at 1, printf at 1, emit at 1.
  unfold bind at 1.
  destruct (call_frame w addr_ptr) as (ev & R & _ & Hrun).
  match goal with |- context [virtual_to_physical_address _ w ?s1] =>
    destruct (Hrun s1) as (pos & ->)
  end.
  unfold bind at 1, printf at 1, emit at 1.
  do 2 eexists. split; [reflexivity|]. split; [reflexivity|].
  cbn [trace]. split; [rewrite <- !app_assoc; reflexivity|].
  rewrite !reports_app, R. reflexivity.
Qed.

(** [main] on numerals other than zero and then a zero. *)
Lemma main_to_zero (w : world) (s : state) (argv0 argv1 : string)
  (addr_ptr : Z) (vs : list Z) (rest : list scan_item) :
  Forall (fun v => v <> 0) vs ->
  exists s' ev,
    main argv0 argv1 addr_ptr (map Hex vs ++ Hex 0 :: rest) w s
    = (Returned 0, s')
    /\ open_streams s' = open_streams s
    /\ trace s' = trace s ++ ev
    /\ reports ev
       = map (fun v => (strtoul_value v, resolve w (strtoul_value v)))
             (vs ++ [0]).
Proof.
  intros Hvs.
  destruct (main_start argv0 argv1 addr_ptr (map Hex vs ++ Hex 0 :: rest) w s)
    as (s0 & ev0 & -> & O0 & T0 & R0).
  destruct (main_loop_shows w (Hex 0 :: rest) vs Hvs 1 s0 ltac:(lia))
    as (addr' & s1 & ev1 & Ha & -> & O1 & T1 & R1).
  destruct (main_loop_turn w 0 rest addr' s1 Ha)
    as (s2 & -> & O2 & ev2 & T2 & R2).
  change (strtoul_value 0) with 0 in *.
  rewrite main_loop_stop by lia.
  exists s2, (ev0 ++ ev1 ++ ev2). split; [reflexivity|].
  split; [congruence|].
  split; [rewrite T2, T1, T0, <- !app_assoc; reflexivity|].
  rewrite !reports_app, R0, R1, R2, map_app. reflexivity.
Qed.

(** Numerals that fit [unsigned long] are read as they are. *)
Lemma map_strtoul_value {A : Type} (g : Z -> A) (vs : list Z) :
  Forall (fun v => 0 <= v < 2 ^ 64) vs ->
  map (fun v => (strtoul_value v, g (strtoul_value v))) vs
  = map (fun v => (v, g v)) vs.
Proof.
  induction 1 as [|v vs Hv _ IH]; [reflexivity|].
  cbn [map]. rewrite IH, (strtoul_value_small v Hv). reflexivity.
Qed.

(** X10.  On numerals other than zero followed by a zero, the driver shows
    one "vaddr:..., paddr:..." line per numeral read, in the order read and
    the zero included, each with the address [scanf] stored for the numeral
    and the value the call returns for it.  The address is the number
    written when that fits [unsigned long], and [ULONG_MAX] for a numeral
    too large for the type. *)
Theorem driver_reports
  (w : world) (s : state) (argv0 argv1 : string) (addr_ptr : Z)
  (vs : list Z) (rest : list scan_item) :
  Forall (fun v => v <> 0) vs ->
  let shown :=
    reports (events_since s
               (snd (main argv0 argv1 addr_ptr
                          (map Hex vs ++ Hex 0 :: rest) w s))) in
  shown
  = map (fun v => (strtoul_value v,
                   fst (virtual_to_physical_address (strtoul_value v) w s)))
        (vs ++ [0])
  /\ (Forall (fun v => 0 <= v < 2 ^ 64) vs ->
      shown
      = map (fun v => (v, fst (virtual_to_physical_address v w s)))
            (vs ++ [0]))
  /\ (forall v, In v vs -> 2 ^ 64 <= v ->
      In (ULONG_MAX, fst (virtual_to_physical_address ULONG_MAX w s)) shown).
Proof.
  intros Hvs shown.
  assert (E : shown
              = map (fun v =>
                       (strtoul_value v,
                        fst (virtual_to_physical_address (strtoul_value v) w s)))
                    (vs ++ [0])).
  { subst shown.
    destruct (main_to_zero w s argv0 argv1 addr_ptr vs rest Hvs)
      as (s' & ev & -> & _ & T & R).
    unfold events_since. cbn [snd]. rewrite T, skipn_length_app, R.
    apply map_ext. intros v. f_equal.
    destruct (call_frame w (strtoul_value v)) as (ev' & _ & _ & Hrun).
    destruct (Hrun s) as (pos & ->). reflexivity. }
  split; [exact E|]. split.
  - intros Hfit. rewrite E.
    apply (map_strtoul_value
             (fun v => fst (virtual_to_physical_address v w s))).
    apply Forall_app. split; [exact Hfit|].
    constructor; [lia|constructor].
  - intros v Hin Hbig. rewrite E.
    replace ULONG_MAX with (strtoul_value v).
    + apply (in_map (fun v =>
               (strtoul_value v,
                fst (virtual_to_physical_address (strtoul_value v) w s)))).
      apply in_or_app. left. exact Hin.
    + unfold strtoul_value.
      destruct (Z.ltb_spec (Z.abs v) (2 ^ 64)); [lia|reflexivity].
Qed.

Lemma driver_reports_witness :
  reports (events_since initial_state
             (snd (main "./check_mapping" "" 0x456789
                        [Hex 0x456000; Hex 0x10000000000000005; Hex 0; Hex 5]
                        frame_0x123_world initial_state)))
  = [(0x456000, 0x123000); (0xFFFFFFFFFFFFFFFF, 0); (0, 0)].
Proof.
  refine (proj1 (driver_reports frame_0x123_world initial_state
                   "./check_mapping" "" 0x456789
                   [0x456000; 0x10000000000000005] [Hex 5] _)).
  constructor; [discriminate|].
  constructor; [discriminate|constructor].
Defined.

(** X11.  Whatever the input and the environment, [main] returns 0 or is
    aborted by its assertion: it has no other exit code, also when the
    mapping file cannot be opened.  And it leaves no stream open. *)
Theorem driver_exit_codes
  (w : world) (s : state) (argv0 argv1 : string) (addr_ptr : Z)
  (stdin : list scan_item) :
  (fst (main argv0 argv1 addr_ptr stdin w s) = Returned 0
   \/ fst (main argv0 argv1 addr_ptr stdin w s) = Aborted)
  /\ open_streams (snd (main argv0 argv1 addr_ptr stdin w s))
     = open_streams s.
Proof.
  assert (L : forall stdin addr s,
             (fst (main_loop stdin addr w s) = Returned 0
              \/ fst (main_loop stdin addr w s) = Aborted)
             /\ open_streams (snd (main_loop stdin addr w s))
                = open_streams s).
  { clear. intros stdin. induction stdin as [|item stdin IH]; intros addr s.
    - destruct (Z.ltb_spec 0 addr) as [Ha|Ha].
      + rewrite (main_loop_failed [] addr w s Ha) by (left; reflexivity).
        cbn [fst snd open_streams]. auto.
      + rewrite main_loop_stop by lia. cbn [fst snd]. auto.
    - destruct (Z.ltb_spec 0 addr) as [Ha|Ha];
        [|rewrite main_loop_stop by lia; cbn [fst snd]; auto].
      destruct item as [v|].
      + destruct (main_loop_turn w v stdin addr s Ha) as (s' & -> & O & _).
        rewrite <- O. apply IH.
      + rewrite (main_loop_failed (NoMatch :: stdin) addr w s Ha)
          by (right; eexists; reflexivity).
        cbn [fst snd open_streams]. auto. }
  destruct (main_start argv0 argv1 addr_ptr stdin w s)
    as (s0 & ev0 & -> & O0 & _).
  rewrite <- O0. apply L.
Qed.

(** X12.  When the mapping file cannot be opened, the driver does not stop
    at its first call: on numerals other than zero followed by a zero it
    returns 0 and has shown every address read (the numbers written, when
    they fit [unsigned long]) with the value 0 for it. *)
Theorem driver_without_mapping_file
  (w : world) (s : state) (argv0 argv1 : string) (addr_ptr : Z)
  (vs : list Z) (rest : list scan_item) :
  files w page_mapping_file = None ->
  Forall (fun v => v <> 0) vs ->
  let r := main argv0 argv1 addr_ptr (map Hex vs ++ Hex 0 :: rest) w s in
  fst r = Returned 0
  /\ reports (events_since s (snd r))
     = map (fun v => (strtoul_value v, 0)) (vs ++ [0])
  /\ (Forall (fun v => 0 <= v < 2 ^ 64) vs ->
      reports (events_since s (snd r)) = map (fun v => (v, 0)) (vs ++ [0])).
Proof.
  intros H Hvs r. subst r.
  destruct (main_to_zero w s argv0 argv1 addr_ptr vs rest Hvs)
    as (s' & ev & -> & _ & T & R).
  assert (E : reports (events_since s (snd (Returned 0, s')))
              = map (fun v => (strtoul_value v, 0)) (vs ++ [0])).
  { unfold events_since. cbn [snd]. rewrite T, skipn_length_app, R.
    apply map_ext. intros v. f_equal.
    unfold resolve. rewrite (run_cannot_open w _ (strtoul_value v) H).
    reflexivity. }
  split; [reflexivity|]. split; [exact E|].
  intros Hfit. rewrite E.
  apply (map_strtoul_value (fun _ => 0)).
  apply Forall_app. split; [exact Hfit|].
  constructor; [lia|constructor].
Qed.

Lemma driver_without_mapping_file_witness :
  fst (main "./check_mapping" "" 0x456789 [Hex 0x456000; Hex 0]
            no_pagemap_world initial_state)
  = Returned 0
  /\ reports (events_since initial_state
       (snd (main "./check_mapping" "" 0x456789 [Hex 0x456000; Hex 0]
                  no_pagemap_world initial_state)))
     = [(0x456000, 0); (0, 0)].
Proof.
  refine ((fun H => conj (proj1 H) (proj1 (proj2 H)))
    (driver_without_mapping_file no_pagemap_world initial_state
       "./check_mapping" "" 0x456789 [0x456000] [] _ _)).
  - reflexivity.
  - constructor; [discriminate|constructor].
Defined.

(** * Properties of [identity_map.c] *)

(** Lays the steps of a tool open, down to the tests it makes. *)
Ltac tool_unfold :=
  cbv beta iota delta
    [Tools.bind Tools.ret Tools.stop Tools.emit Tools.printf Tools.puts
     Tools.perror Tools.syscall Tools.fork Tools.execvp Tools.wait Tools.exit
     Tools.arg Tools.strcmp_is_0 Tools.basename Tools.uninitialised
     IdentityMap.run_command IdentityMap.print_lines nth_error].

Lemma argc_ge_2 (prog a1 : string) (rest : list string) :
  (Z.of_nat (List.length (prog :: a1 :: rest)) <? 2) = false.
Proof. apply Z.ltb_ge. cbn [List.length]. lia. Qed.

Lemma argc_ge_3 (prog a1 a2 : string) (rest : list string) :
  (Z.of_nat (List.length (prog :: a1 :: a2 :: rest)) <? 3) = false.
Proof. apply Z.ltb_ge. cbn [List.length]. lia. Qed.

(** X13.  Started with no argument after its name, [identity_map] prints
    its five lines of usage and returns -1 without a system call. *)
Theorem identity_map_usage (e : Tools.env) (argv : list string) :
  (List.length argv < 2)%nat ->
  Tools.run (IdentityMap.main argv) e
  = (Tools.Returned (-1),
     map (fun line => Tools.Printf line []) IdentityMap.usage).
Proof.
  intros H. destruct argv as [|prog [|a1 rest]]; [| |cbn in H; lia];
    reflexivity.
Qed.

Lemma identity_map_usage_witness :
  fst (Tools.run (IdentityMap.main ["./identity-map"%string])
         (tool_env 0 1 false 0))
  = Tools.Returned (-1).
Proof.
  refine (f_equal fst (identity_map_usage (tool_env 0 1 false 0)
                         ["./identity-map"%string] _)).
  cbn. lia.
Defined.

(** X14.  The forms [name stable ...], [name testing ...] and [pid ...]
    each make one system call, number 335, with the arguments that follow
    and their count, in mode 1, 2 and -1, and [main] returns the answer of
    the kernel, as an [int]. *)
Theorem identity_map_register
  (e : Tools.env) (prog : string) (names : list string) :
  Tools.run (IdentityMap.main (prog :: "name" :: "stable" :: names)%string) e
  = (Tools.Returned
       (Tools.to_int
          (Tools.kernel e [] 335 (Some names) (Z.of_nat (List.length names)) 1)),
     [Tools.Syscall 335 (Some names) (Z.of_nat (List.length names)) 1])
  /\ Tools.run (IdentityMap.main (prog :: "name" :: "testing" :: names)%string) e
     = (Tools.Returned
          (Tools.to_int
             (Tools.kernel e [] 335 (Some names)
                (Z.of_nat (List.length names)) 2)),
        [Tools.Syscall 335 (Some names) (Z.of_nat (List.length names)) 2])
  /\ Tools.run (IdentityMap.main (prog :: "pid" :: names)%string) e
     = (Tools.Returned
          (Tools.to_int
             (Tools.kernel e [] 335 (Some names)
                (Z.of_nat (List.length names)) (-1))),
        [Tools.Syscall 335 (Some names) (Z.of_nat (List.length names)) (-1)]).
Proof.
  assert (C3 : forall a b c : string,
             Z.of_nat (List.length (a :: b :: c :: names)) - 3
             = Z.of_nat (List.length names))
    by (intros; cbn [List.length]; lia).
  assert (C2 : forall a b : string,
             Z.of_nat (List.length (a :: b :: names)) - 2
             = Z.of_nat (List.length names))
    by (intros; cbn [List.length]; lia).
  repeat split; unfold Tools.run, IdentityMap.main; cbv zeta;
    rewrite argc_ge_2, ?C3, ?C2; reflexivity.
Qed.

(** X15.  A first argument that is none of [command], [name], [pid] and
    [help] is turned down: one line is printed and [main] returns -1 without
    a system call.  [help] prints its five lines and returns -1 as well. *)
Theorem identity_map_unknown_word
  (e : Tools.env) (prog word : string) (rest : list string) :
  word <> "command"%string -> word <> "name"%string ->
  word <> "pid"%string -> word <> "help"%string ->
  Tools.run (IdentityMap.main (prog :: word :: rest)) e
  = (Tools.Returned (-1), [Tools.Printf IdentityMap.cannot_run []])
  /\ Tools.run (IdentityMap.main (prog :: "help"%string :: rest)) e
     = (Tools.Returned (-1),
        map (fun line => Tools.Printf line []) IdentityMap.help).
Proof.
  intros Hc Hn Hp Hh. apply String.eqb_neq in Hc, Hn, Hp, Hh.
  split; unfold Tools.run, IdentityMap.main; cbv zeta; rewrite argc_ge_2;
    [|reflexivity].
  tool_unfold. rewrite Hc, Hn, Hp, Hh. reflexivity.
Qed.

Lemma identity_map_unknown_word_witness :
  fst (Tools.run (IdentityMap.main ["./identity-map"; "names"; "gem5"]%string)
         (tool_env 0 1 false 0))
  = Tools.Returned (-1).
Proof.
  refine (f_equal fst (proj1 (identity_map_unknown_word (tool_env 0 1 false 0)
            "./identity-map" "names" ["gem5"%string] _ _ _ _)));
    discriminate.
Defined.

(** X16.  After [name], a third argument other than [stable] and [testing]
    is turned down like an unknown word, with -1 and no system call: so are
    the [1] and [2] that the usage text shows for this form. *)
Theorem identity_map_name_qualifier
  (e : Tools.env) (prog qualifier : string) (rest : list string) :
  qualifier <> "stable"%string -> qualifier <> "testing"%string ->
  Tools.run (IdentityMap.main (prog :: "name"%string :: qualifier :: rest)) e
  = (Tools.Returned (-1), [Tools.Printf IdentityMap.cannot_run []]).
Proof.
  intros Hs Ht. apply String.eqb_neq in Hs, Ht.
  unfold Tools.run, IdentityMap.main; cbv zeta; rewrite argc_ge_2.
  tool_unfold. cbn [String.eqb Ascii.eqb Bool.eqb]. rewrite Hs, Ht.
  reflexivity.
Qed.

Lemma identity_map_name_qualifier_witness :
  Tools.run (IdentityMap.main ["./identity-map"; "name"; "1"; "gem5"]%string)
    (tool_env 0 1 false 0)
  = (Tools.Returned (-1), [Tools.Printf IdentityMap.cannot_run []]).
Proof.
  refine (identity_map_name_qualifier (tool_env 0 1 false 0)
            "./identity-map" "1" ["gem5"%string] _ _); discriminate.
Defined.

(** X17.  A form named without what must follow it is not handled alike:
    [command] alone prints three lines and returns -1 without a system call
    or a [fork], while [name] alone hands the null pointer that ends [argv]
    to [strcmp], which C leaves undefined, before anything is printed. *)
Theorem identity_map_missing_argument (e : Tools.env) (prog : string) :
  Tools.run (IdentityMap.main [prog; "command"%string]) e
  = (Tools.Returned (-1),
     map (fun line => Tools.Printf line []) IdentityMap.command_usage)
  /\ Tools.run (IdentityMap.main [prog; "name"%string]) e
     = (Tools.Undefined, []).
Proof. split; reflexivity. Qed.

(** X18.  In the parent of a [fork] that succeeded, [command cmd args]
    registers the base name of [cmd] (count 1, mode 1), forks, prints a line,
    waits for the child and then makes the call with no names (count 0,
    mode 1); [main] returns the answer to this last call, the answer to the
    first one being dropped. *)
Theorem identity_map_command_parent
  (e : Tools.env) (prog cmd : string) (args : list string) :
  Tools.fork_result e <> -1 -> Tools.fork_result e <> 0 ->
  let before :=
    command_start e cmd ++
    [Tools.Printf ("Badger Trap launched with process %s" ++ LF)%string
                  [Tools.basename_leaves e cmd];
     Tools.Wait] in
  Tools.run (IdentityMap.main (prog :: "command"%string :: cmd :: args)) e
  = (Tools.Returned (Tools.to_int (Tools.kernel e before 335 None 0 1)),
     before ++ [Tools.Syscall 335 None 0 1]).
Proof.
  intros H1 H0. apply Z.eqb_neq in H1, H0.
  unfold Tools.run, IdentityMap.main; cbv zeta; rewrite argc_ge_2, argc_ge_3.
  tool_unfold. cbn [String.eqb Ascii.eqb Bool.eqb]. rewrite H1, H0.
  reflexivity.
Qed.

Lemma identity_map_command_parent_witness :
  Tools.run (IdentityMap.main ["./identity-map"; "command"; "ls"; "-l"]%string)
    (tool_env 7 1234 false 0)
  = (Tools.Returned 7,
     [Tools.Syscall 335 (Some ["ls"%string]) 1 1; Tools.Fork 1234;
      Tools.Printf ("Badger Trap launched with process %s" ++ LF)%string
                   ["ls"%string];
      Tools.Wait; Tools.Syscall 335 None 0 1]).
Proof.
  refine (identity_map_command_parent (tool_env 7 1234 false 0)
            "./identity-map" "ls" ["-l"%string] _ _); discriminate.
Defined.

(** X19.  When [fork] fails, [command cmd args] has [perror] report it and
    still makes the call with no names, whose answer [main] returns: the
    failure to start the command does not show in the exit code. *)
Theorem identity_map_command_fork_fails
  (e : Tools.env) (prog cmd : string) (args : list string) :
  Tools.fork_result e = -1 ->
  let before := command_start e cmd ++ [Tools.Perror "Fork Failed !!"] in
  Tools.run (IdentityMap.main (prog :: "command"%string :: cmd :: args)) e
  = (Tools.Returned (Tools.to_int (Tools.kernel e before 335 None 0 1)),
     before ++ [Tools.Syscall 335 None 0 1]).
Proof.
  intros H1.
  unfold Tools.run, IdentityMap.main; cbv zeta; rewrite argc_ge_2, argc_ge_3.
  unfold command_start. tool_unfold. cbn [String.eqb Ascii.eqb Bool.eqb].
  rewrite H1. reflexivity.
Qed.

Lemma identity_map_command_fork_fails_witness :
  Tools.run (IdentityMap.main ["./identity-map"; "command"; "ls"]%string)
    (tool_env 7 (-1) false 0)
  = (Tools.Returned 7,
     [Tools.Syscall 335 (Some ["ls"%string]) 1 1; Tools.Fork (-1);
      Tools.Perror "Fork Failed !!"; Tools.Syscall 335 None 0 1]).
Proof.
  refine (identity_map_command_fork_fails (tool_env 7 (-1) false 0)
            "./identity-map" "ls" [] _); reflexivity.
Defined.

(** X20.  In the child of the [fork], [command cmd args] calls [execvp] on
    [cmd] with [cmd] and [args] as its arguments; should [execvp] fail, the
    child exits with code 0 and without a message.  The child never makes
    the call with no names. *)
Theorem identity_map_command_child
  (e : Tools.env) (prog cmd : string) (args : list string) :
  Tools.fork_result e = 0 ->
  Tools.run (IdentityMap.main (prog :: "command"%string :: cmd :: args)) e
  = (if Tools.execvp_fails e then Tools.Exited 0 else Tools.Replaced,
     command_start e cmd ++
     [Tools.Execvp (Tools.basename_leaves e cmd)
                   (Tools.basename_leaves e cmd :: args)]).
Proof.
  intros H0.
  unfold Tools.run, IdentityMap.main; cbv zeta; rewrite argc_ge_2, argc_ge_3.
  unfold command_start. tool_unfold. cbn [String.eqb Ascii.eqb Bool.eqb].
  rewrite H0. cbn [Z.eqb skipn]. destruct (Tools.execvp_fails e); reflexivity.
Qed.

Lemma identity_map_command_child_witness :
  Tools.run (IdentityMap.main ["./identity-map"; "command"; "ls"; "-l"]%string)
    (tool_env 7 0 true 0)
  = (Tools.Exited 0,
     [Tools.Syscall 335 (Some ["ls"%string]) 1 1; Tools.Fork 0;
      Tools.Execvp "ls" ["ls"; "-l"]%string]).
Proof.
  refine (identity_map_command_child (tool_env 7 0 true 0)
            "./identity-map" "ls" ["-l"%string] _); reflexivity.
Defined.

(** Closes the three parts of the statement below on an explicit trace. *)
Ltac syscalls_done :=
  cbn;
  split;
  [ repeat (first [apply Forall_nil | apply Forall_cons]);
    repeat split; auto; lia
  | split; [lia | intros E; first [discriminate E | auto]] ].

(** X21.  Whatever its arguments and the environment, [identity_map] makes
    at most two system calls, each of them number 335 with a count that is
    not negative and mode 1, 2 or -1; when it makes none, it returns -1 or
    meets the undefined [strcmp]. *)
Theorem identity_map_syscalls (e : Tools.env) (argv : list string) :
  let r := Tools.run (IdentityMap.main argv) e in
  Forall (fun c => match c with
                   | (number, _, count, mode) =>
                       number = 335 /\ 0 <= count
                       /\ (mode = 1 \/ mode = 2 \/ mode = -1)
                   end) (tool_syscalls (snd r))
  /\ (List.length (tool_syscalls (snd r)) <= 2)%nat
  /\ (tool_syscalls (snd r) = [] ->
      fst r = Tools.Returned (-1) \/ fst r = Tools.Undefined).
Proof.
  destruct argv as [|prog [|a1 rest]]; [syscalls_done|syscalls_done|].
  unfold Tools.run, IdentityMap.main; cbv zeta; rewrite argc_ge_2.
  tool_unfold.
  destruct (String.eqb a1 "command").
  - destruct rest as [|a2 r]; [syscalls_done|].
    rewrite argc_ge_3.
    destruct (Tools.fork_result e =? -1);
      [|destruct (Tools.fork_result e =? 0);
        [destruct (Tools.execvp_fails e)|]];
      syscalls_done.
  - assert (C2 : 0 <= Z.of_nat (List.length (prog :: a1 :: rest)) - 2)
      by (cbn [List.length]; lia).
    destruct (String.eqb a1 "name").
    + destruct rest as [|a2 r]; [syscalls_done|].
      assert (C3 : 0 <= Z.of_nat (List.length (prog :: a1 :: a2 :: r)) - 3)
        by (cbn [List.length]; lia).
      revert C2 C3.
      generalize (Z.of_nat (List.length (prog :: a1 :: a2 :: r)) - 2).
      generalize (Z.of_nat (List.length (prog :: a1 :: a2 :: r)) - 3).
      intros c3 c2 C2 C3.
      destruct (String.eqb a2 "stable");
        [|destruct (String.eqb a2 "testing");
          [|destruct (String.eqb a1 "pid");
            [|destruct (String.eqb a1 "help")]]];
        syscalls_done.
    + revert C2.
      generalize (Z.of_nat (List.length (prog :: a1 :: rest)) - 2).
      intros c2 C2.
      destruct (String.eqb a1 "pid");
        [|destruct (String.eqb a1 "help")];
        syscalls_done.
Qed.

(** * Properties of [apriori_paging_set_process.c] *)

Lemma text_codes (s : string) : AprioriPaging.text (AprioriPaging.codes s) = s.
Proof.
  unfold AprioriPaging.text, AprioriPaging.codes. rewrite map_map.
  rewrite (map_ext _ (fun a => a)), map_id.
  - apply string_of_list_ascii_of_string.
  - intros a. rewrite N2Z.id. apply ascii_N_embedding.
Qed.

Lemma codes_length (s : string) :
  List.length (AprioriPaging.codes s) = String.length s.
Proof.
  unfold AprioriPaging.codes. rewrite length_map.
  induction s; simpl; auto.
Qed.

Lemma c_str_app (pre rest : list Z) :
  Forall (fun c => c <> 0) pre ->
  AprioriPaging.c_str (pre ++ rest)
  = match AprioriPaging.c_str rest with
    | Some cs => Some (pre ++ cs)
    | None => None
    end.
Proof.
  induction 1 as [|c pre Hc _ IH]; cbn [app AprioriPaging.c_str].
  - destruct (AprioriPaging.c_str rest); reflexivity.
  - apply Z.eqb_neq in Hc. rewrite Hc, IH.
    destruct (AprioriPaging.c_str rest); reflexivity.
Qed.

Lemma strncpy_pads (n : nat) :
  forall dest, (n <= List.length dest)%nat ->
    AprioriPaging.strncpy dest [] n = repeat 0 n ++ skipn n dest.
Proof.
  induction n as [|n IH]; intros dest H; [destruct dest; reflexivity|].
  destruct dest as [|d dest]; [cbn in H; lia|].
  cbn [AprioriPaging.strncpy repeat app skipn]. rewrite IH by (cbn in H; lia).
  reflexivity.
Qed.

Lemma strncpy_copies (cs : list Z) :
  Forall (fun c => c <> 0) cs ->
  forall n dest,
    (n <= List.length dest)%nat ->
    AprioriPaging.strncpy dest cs n
    = firstn n cs ++ repeat 0 (n - List.length cs) ++ skipn n dest.
Proof.
  induction 1 as [|c cs Hc _ IH]; intros n dest H.
  - rewrite strncpy_pads by exact H. rewrite firstn_nil, Nat.sub_0_r.
    reflexivity.
  - destruct n as [|n]; [destruct dest; reflexivity|].
    destruct dest as [|d dest]; [cbn in H; lia|].
    apply Z.eqb_neq in Hc.
    cbn [AprioriPaging.strncpy firstn List.length Nat.sub skipn app].
    rewrite Hc, IH by (cbn in H; lia). reflexivity.
Qed.

(** The steps of [main] once it has an argument. *)
Lemma apriori_main_run (e : Tools.env) (prog name : string)
  (rest : list string) :
  Tools.run (AprioriPaging.main (prog :: name :: rest)) e
  = match AprioriPaging.c_str
            (AprioriPaging.strncpy (firstn 32 (Tools.garbage e ++ repeat 0 32))
               (AprioriPaging.codes name) 31) with
    | Some cs =>
        (Tools.Returned 0,
         [Tools.Syscall 333 (Some (name :: rest))
            (Z.of_nat (S (List.length rest))) 1;
          Tools.Puts (AprioriPaging.text cs)])
    | None =>
        (Tools.Undefined,
         [Tools.Syscall 333 (Some (name :: rest))
            (Z.of_nat (S (List.length rest))) 1])
    end.
Proof.
  unfold Tools.run, AprioriPaging.main. cbv zeta. rewrite argc_ge_2.
  replace (Z.of_nat (List.length (prog :: name :: rest)) - 1)
    with (Z.of_nat (S (List.length rest))) by (cbn [List.length]; lia).
  unfold AprioriPaging.strncpy_arg, AprioriPaging.puts_array,
    AprioriPaging.__NR_apriori_paging_alloc.
  tool_unfold. cbn [skipn].
  destruct (AprioriPaging.c_str _); reflexivity.
Qed.

Lemma firstn_succ {A : Type} (d : A) (n : nat) :
  forall l : list A,
    (n < List.length l)%nat -> firstn (S n) l = firstn n l ++ [nth n l d].
Proof.
  induction n as [|n IH]; intros [|a l] H; try (cbn in H; lia).
  - reflexivity.
  - cbn [firstn nth app]. f_equal. apply IH. cbn in H. lia.
Qed.

Lemma forall_firstn {A : Type} (Q : A -> Prop) (n : nat) (l : list A) :
  Forall Q l -> Forall Q (firstn n l).
Proof.
  intros H. revert n. induction H as [|a l Ha _ IH]; intros [|n];
    cbn [firstn]; constructor; auto.
Qed.

Lemma garbage_cells (e : Tools.env) :
  exists cells,
    List.length cells = 31%nat
    /\ firstn 32 (Tools.garbage e ++ repeat 0 32) = cells ++ [last_cell e].
Proof.
  unfold last_cell.
  set (g := Tools.garbage e ++ repeat 0 32).
  assert (Hg : (32 <= List.length g)%nat)
    by (subst g; rewrite length_app, repeat_length; lia).
  exists (firstn 31 g). split.
  - apply firstn_length_le. lia.
  - apply firstn_succ. lia.
Qed.

(** X22.  Started with no argument after its name,
    [apriori_paging_set_process] prints its usage and exits with code 0,
    without a system call. *)
Theorem apriori_no_argument (e : Tools.env) (argv : list string) :
  (List.length argv < 2)%nat ->
  Tools.run (AprioriPaging.main argv) e
  = (Tools.Exited 0,
     [Tools.Printf
        (LF ++ " Usage : ./apriori_paging_set_process [proccess_name]" ++ LF)%string
        []]).
Proof.
  intros H. destruct argv as [|prog [|a1 rest]]; [| |cbn in H; lia];
    reflexivity.
Qed.

Lemma apriori_no_argument_witness :
  fst (Tools.run (AprioriPaging.main ["./apriori_paging_set_process"%string])
         (tool_env 0 1 false 0))
  = Tools.Exited 0.
Proof.
  refine (f_equal fst (apriori_no_argument (tool_env 0 1 false 0)
                         ["./apriori_paging_set_process"%string] _)).
  cbn. lia.
Defined.

(** X23.  With a first name of fewer than 31 characters, the tool makes one
    system call, number 333, with all the names given, their count and mode
    1, then prints the first name in full with [puts] and returns 0,
    whatever the kernel answered and whatever the array [proc] held. *)
Theorem apriori_short_name
  (e : Tools.env) (prog name : string) (rest : list string) :
  nul_free name ->
  (String.length name < 31)%nat ->
  Tools.run (AprioriPaging.main (prog :: name :: rest)) e
  = (Tools.Returned 0,
     [Tools.Syscall 333 (Some (name :: rest))
        (Z.of_nat (S (List.length rest))) 1;
      Tools.Puts name]).
Proof.
  intros Hn Hlen. rewrite apriori_main_run.
  destruct (garbage_cells e) as (cells & Hc & ->).
  rewrite (strncpy_copies _ Hn) by (rewrite length_app, Hc; cbn; lia).
  rewrite firstn_all2 by (rewrite codes_length; lia).
  rewrite c_str_app by exact Hn.
  rewrite codes_length.
  destruct (31 - String.length name)%nat as [|k] eqn:E; [lia|].
  cbn [repeat app AprioriPaging.c_str Z.eqb].
  rewrite app_nil_r, text_codes. reflexivity.
Qed.

Lemma apriori_short_name_witness :
  Tools.run (AprioriPaging.main
               ["./apriori_paging_set_process"; "gem5"; "omp-csr"]%string)
    (tool_env (-1) 1 false 65)
  = (Tools.Returned 0,
     [Tools.Syscall 333 (Some ["gem5"; "omp-csr"]%string) 2 1;
      Tools.Puts "gem5"]).
Proof.
  refine (apriori_short_name (tool_env (-1) 1 false 65)
            "./apriori_paging_set_process" "gem5" ["omp-csr"%string] _ _).
  - repeat constructor; discriminate.
  - cbn. lia.
Defined.

(** X24.  With a first name of 31 characters or more, [strncpy] fills the
    first 31 cells of [proc] with characters of the name and writes no null
    character; the last cell is never written.  [puts] then prints the first
    31 characters if that cell happens to hold a null character, and reads
    past the end of the array, which C leaves undefined, if it does not. *)
Theorem apriori_long_name
  (e : Tools.env) (prog name : string) (rest : list string) :
  nul_free name ->
  (31 <= String.length name)%nat ->
  Tools.run (AprioriPaging.main (prog :: name :: rest)) e
  = if last_cell e =? 0
    then (Tools.Returned 0,
          [Tools.Syscall 333 (Some (name :: rest))
             (Z.of_nat (S (List.length rest))) 1;
           Tools.Puts (AprioriPaging.text
                         (firstn 31 (AprioriPaging.codes name)))])
    else (Tools.Undefined,
          [Tools.Syscall 333 (Some (name :: rest))
             (Z.of_nat (S (List.length rest))) 1]).
Proof.
  intros Hn Hlen. rewrite apriori_main_run.
  destruct (garbage_cells e) as (cells & Hc & ->).
  rewrite (strncpy_copies _ Hn) by (rewrite length_app, Hc; cbn; lia).
  rewrite codes_length.
  replace (31 - String.length name)%nat with 0%nat by lia.
  rewrite <- Hc, skipn_app, skipn_all, Nat.sub_diag. cbn [repeat app skipn].
  rewrite c_str_app by (apply forall_firstn; exact Hn).
  cbn [AprioriPaging.c_str].
  destruct (last_cell e =? 0); [rewrite app_nil_r|]; reflexivity.
Qed.

Lemma apriori_long_name_witness :
  Tools.run (AprioriPaging.main
               ["./apriori_paging_set_process";
                "a-process-name-of-34-characters-xx"]%string)
    (tool_env 0 1 false 65)
  = (Tools.Undefined,
     [Tools.Syscall 333 (Some ["a-process-name-of-34-characters-xx"%string])
        1 1]).
Proof.
  refine (apriori_long_name (tool_env 0 1 false 65)
            "./apriori_paging_set_process"
            "a-process-name-of-34-characters-xx" [] _ _).
  - repeat constructor; discriminate.
  - cbn. lia.
Defined.
